(** * hrun: session protocol and PTY lifecycle

    A shallow embedding of [main.go] (package [main] of mirkobrombin/hrun):
    the server's per-connection handler [handleConnection], the resize
    control loop it starts, the two readers that share one connection,
    the listener [startServer], the client [startClient] and the
    dispatch in [main].

    Strings are byte strings ([string] of 8-bit [ascii]), as in Go.
    Integers are [Z]; the conversion to [uint16] is written out as a
    remainder modulo [2^16].  Operating-system services (PTY allocation
    and resize, process start, signals, the arrival of bytes on a socket)
    are inputs of the model: each function takes the results the
    environment gave it and returns the trace of effects it performed. *)

From Stdlib Require Import ZArith List Bool Lia.
From Stdlib Require Import Strings.Ascii Strings.String DecimalString.
From Stdlib Require DecimalPos.
Import ListNotations.

Local Open Scope string_scope.
Local Open Scope Z_scope.

(** ** Go library functions used by the program *)

Module GoString.

(** Byte value of a character. *)
Definition code (c : ascii) : N := N_of_ascii c.

Definition LF : ascii := ascii_of_N 10.

(** [strings.HasPrefix(s, prefix)]. *)
Fixpoint HasPrefix (s pre : string) {struct pre} : bool :=
  match pre, s with
  | EmptyString, _ => true
  | String a pre', String b s' => Ascii.eqb a b && HasPrefix s' pre'
  | String _ _, EmptyString => false
  end.

(** The six ASCII white-space bytes of Go's [asciiSpace] table:
    tab, line feed, vertical tab, form feed, carriage return, space. *)
Definition isAsciiSpace (c : ascii) : bool :=
  let n := code c in
  ((9 <=? n) && (n <=? 13) || (n =? 32))%N.

(** A leading white-space rune ([unicode.IsSpace]) in UTF-8, dropped:
    the ASCII ones (bytes below [utf8.RuneSelf] stand for themselves),
    U+0085, U+00A0, U+1680, U+2000..U+200A, U+2028, U+2029, U+202F,
    U+205F and U+3000.  [None] when the first rune is not white space
    (also when it is an invalid encoding). *)
Definition dropSpaceRune (l : list ascii) : option (list ascii) :=
  match l with
  | [] => None
  | c :: t =>
    if (code c <? 128)%N then (if isAsciiSpace c then Some t else None)
    else
    match code c, List.map code t, t with
    | 194%N, (133 :: _)%N, _ :: r => Some r
    | 194%N, (160 :: _)%N, _ :: r => Some r
    | 225%N, (154 :: 128 :: _)%N, _ :: _ :: r => Some r
    | 226%N, (128 :: b :: _)%N, _ :: _ :: r =>
        if ((128 <=? b) && (b <=? 138) || (b =? 168) || (b =? 169)
            || (b =? 175))%N then Some r else None
    | 226%N, (129 :: 159 :: _)%N, _ :: _ :: r => Some r
    | 227%N, (128 :: 128 :: _)%N, _ :: _ :: r => Some r
    | _, _, _ => None
    end
  end.

(** A trailing white-space rune, seen on the reversed byte list (what
    [utf8.DecodeLastRuneInString] followed by [unicode.IsSpace] accepts). *)
Definition dropSpaceRuneRev (l : list ascii) : option (list ascii) :=
  match l with
  | [] => None
  | c :: t =>
    if (code c <? 128)%N then (if isAsciiSpace c then Some t else None)
    else
    match code c, List.map code t, t with
    | 133%N, (194 :: _)%N, _ :: r => Some r
    | 160%N, (194 :: _)%N, _ :: r => Some r
    | 128%N, (154 :: 225 :: _)%N, _ :: _ :: r => Some r
    | 128%N, (128 :: 227 :: _)%N, _ :: _ :: r => Some r
    | 159%N, (129 :: 226 :: _)%N, _ :: _ :: r => Some r
    | b, (128 :: 226 :: _)%N, _ :: _ :: r =>
        if ((128 <=? b) && (b <=? 138) || (b =? 168) || (b =? 169)
            || (b =? 175))%N then Some r else None
    | _, _, _ => None
    end
  end.

(** Repeat a one-rune drop until it no longer applies.  Every drop
    removes at least one byte, so [length l] rounds are enough. *)
Fixpoint dropWhile (drop : list ascii -> option (list ascii))
         (fuel : nat) (l : list ascii) : list ascii :=
  match fuel with
  | O => l
  | S fuel' =>
    match drop l with
    | Some r => dropWhile drop fuel' r
    | None => l
    end
  end.

Definition trimLeft (l : list ascii) : list ascii :=
  dropWhile dropSpaceRune (List.length l) l.

Definition trimRight (l : list ascii) : list ascii :=
  List.rev (dropWhile dropSpaceRuneRev (List.length l) (List.rev l)).

(** [strings.TrimSpace(s)]: all leading and trailing white space,
    as defined by Unicode, removed. *)
Definition TrimSpace (s : string) : string :=
  string_of_list_ascii (trimRight (trimLeft (list_ascii_of_string s))).

(** [strings.Split(s, sep)] for a one-byte separator (the program
    only splits on [":"]): the pieces between consecutive separators;
    a string without separator gives one piece, also when empty. *)
Fixpoint Split (s : string) (sep : ascii) : list string :=
  match s with
  | EmptyString => [EmptyString]
  | String c r =>
    if Ascii.eqb c sep then EmptyString :: Split r sep
    else match Split r sep with
         | p :: ps => String c p :: ps
         | [] => [String c EmptyString]
         end
  end.

(** [bufio.Reader.ReadString(delim)] on the bytes still to come:
    the line up to and including the first [delim] and what follows it,
    or [None] (an error, io.EOF) when the stream ends before a [delim]. *)
Fixpoint ReadString (delim : ascii) (s : string) : option (string * string) :=
  match s with
  | EmptyString => None
  | String c r =>
    if Ascii.eqb c delim then Some (String c EmptyString, r)
    else match ReadString delim r with
         | Some (line, rest) => Some (String c line, rest)
         | None => None
         end
  end.

(** [path.Base]: trailing slashes removed, then the last element;
    ["."] for the empty path and ["/"] for a path of slashes only. *)
Fixpoint stripSlashesRev (l : list ascii) : list ascii :=
  match l with
  | c :: t => if Ascii.eqb c "/" then stripSlashesRev t else l
  | [] => []
  end.

Fixpoint untilSlash (l : list ascii) : list ascii :=
  match l with
  | c :: t => if Ascii.eqb c "/" then [] else c :: untilSlash t
  | [] => []
  end.

Definition Base (p : string) : string :=
  match p with
  | EmptyString => "."
  | _ =>
    match untilSlash (stripSlashesRev (List.rev (list_ascii_of_string p))) with
    | [] => "/"
    | l => string_of_list_ascii (List.rev l)
    end
  end.

End GoString.

Module Strconv.

(** Bit size of Go's [int] on the platforms the program targets. *)
Definition intSize : Z := 64.

Definition digit (c : ascii) : option Z :=
  let n := Z.of_N (N_of_ascii c) in
  if (48 <=? n) && (n <=? 57) then Some (n - 48) else None.

(** Value of a non-empty run of decimal digits, most significant first. *)
Fixpoint digits (acc : Z) (s : string) : option Z :=
  match s with
  | EmptyString => Some acc
  | String c r =>
    match digit c with
    | Some d => digits (acc * 10 + d) r
    | None => None
    end
  end.

Definition unsigned (s : string) : option Z :=
  match s with
  | EmptyString => None
  | _ => digits 0 s
  end.

(** [strconv.Atoi]: an optional sign, then one or more decimal digits,
    the value within the range of [int]; anything else is an error
    (syntax or range), here [None]. *)
Definition Atoi (s : string) : option Z :=
  let signed :=
    match s with
    | String c r =>
      if Ascii.eqb c "-" then option_map Z.opp (unsigned r)
      else if Ascii.eqb c "+" then unsigned r
      else unsigned s
    | EmptyString => None
    end in
  match signed with
  | Some n =>
    if (- 2 ^ (intSize - 1) <=? n) && (n <=? 2 ^ (intSize - 1) - 1)
    then Some n else None
  | None => None
  end.

(** The conversion [uint16(n)] of an [int]: the low 16 bits. *)
Definition uint16 (n : Z) : Z := n mod 2 ^ 16.

(** [strconv.Itoa], which is also what the verb [%d] of [fmt.Sprintf]
    prints for an [int]. *)
Definition Itoa (n : Z) : string := NilZero.string_of_int (Z.to_int n).

End Strconv.

Import GoString Strconv.

(** Line feed as a one-byte string, and the first [n] bytes of a string
    and what follows them. *)
Definition nl : string := String LF EmptyString.

Fixpoint take (n : nat) (s : string) : string :=
  match n, s with
  | S n', String c r => String c (take n' r)
  | _, _ => EmptyString
  end.

Fixpoint drop (n : nat) (s : string) : string :=
  match n, s with
  | S n', String _ r => drop n' r
  | _, _ => s
  end.

(** ** Data model *)

(** [type Command struct { Command []string; Width uint16; Height uint16 }] *)
Record Command := mkCommand {
  Command_ : list string;
  Width : Z;
  Height : Z
}.

(** [pty.Winsize]: rows, columns and the pixel sizes, all [uint16]. *)
Record Winsize := mkWinsize {
  Rows : Z;
  Cols : Z;
  X : Z;
  Y : Z
}.

(** The composite literal [&pty.Winsize{Cols: c, Rows: r}]. *)
Definition winsize (c r : Z) : Winsize :=
  {| Rows := r; Cols := c; X := 0; Y := 0 |}.

(** Geometry of a PTY pair as [pty.Open] returns it. *)
Definition freshPty : Winsize := winsize 0 0.

(** [pty.Setsize(ptyMaster, ws)]: the kernel either installs [ws]
    ([ok = true], a nil error) or refuses and leaves the geometry as it was. *)
Definition Setsize (ok : bool) (ws : Winsize) (pty : Winsize) : Winsize :=
  if ok then ws else pty.

Inductive Signal := SIGHUP | SIGINT | SIGQUIT | SIGKILL | SIGTERM | SIGWINCH.

Inductive File := Conn | PtyMaster | PtySlave | OsStdin | OsStdout.

(** [syscall.SysProcAttr], the fields the program sets. *)
Record SysProcAttr := mkSysProcAttr {
  Setctty : bool;
  Setsid : bool;
  Pdeathsig : Signal
}.

(** [exec.Cmd] as [handleConnection] fills it.  [Path] is the program
    name handed to [exec.Command(name, arg...)] and [Args] is
    [name :: arg].  For a name without a slash [exec.Command] looks the
    name up along [$PATH] and keeps the file it found; that lookup is the
    operating system's and is not part of the record: a name that cannot
    be resolved makes [cmd.Start] fail. *)
Record Cmd := mkCmd {
  Path : string;
  Args : list string;
  Stdin : File;
  Stdout : File;
  Stderr : File;
  Attr : SysProcAttr
}.

(** The goroutines launched with [go func() {...}()]: the first four
    by [handleConnection], the last three by [startClient]. *)
Inductive goroutine :=
| CopyPtyToConn     (* io.Copy(conn, ptyMaster) *)
| CopyConnToPty     (* io.Copy(ptyMaster, conn) *)
| ResizeLoop        (* for { reader.ReadString(LF) ... } *)
| KillOnSignal      (* <-sigCh; conn.Close(); syscall.Kill(-pid, SIGKILL) *)
| WinchLoop         (* for range sigwinchChan { sendTerminalSize() } *)
| CopyStdinToConn   (* io.Copy(conn, os.Stdin); close(doneCh) *)
| CopyConnToStdout. (* io.Copy(os.Stdout, conn); close(doneCh) *)

(** Effects of the program, in the order a goroutine performs them. *)
Inductive event :=
| Log (msg : string)
| Close (f : File)
| PtyOpen (ok : bool)
| PtySetsize (ws : Winsize) (ok : bool)
| Go (g : goroutine)
| Start (c : Cmd) (ok : bool)
| Notify (sigs : list Signal)
| Wait
| Dial (ok : bool)
| GetSize (size : option (Z * Z))
| Write (f : File) (data : string) (ok : bool)
| MakeRaw (ok : bool)
| Restore.

(** ** A small monad for a Go function body

    Effects are appended to a trace.  A body either goes on with a
    value, or has executed [return], or has stopped where it was: the
    process was terminated by a signal, it panicked, or it is blocked and
    nothing more happens.  [defer] runs an effect when the function
    returns, by either way of returning; a body that stopped runs no
    deferred call. *)

Inductive halt := Killed (sig : Signal) | Panicked | Waiting.

Inductive status (A : Type) :=
| Value (a : A)
| Returned
| Halted (h : halt).

Arguments Value {A} a.
Arguments Returned {A}.
Arguments Halted {A} h.

Definition Body (A : Type) : Type := (list event * status A)%type.

Definition ret {A} (a : A) : Body A := ([], Value a).

Definition bind {A B} (m : Body A) (f : A -> Body B) : Body B :=
  match snd m with
  | Value a => ((fst m ++ fst (f a))%list, snd (f a))
  | Returned => (fst m, Returned)
  | Halted h => (fst m, Halted h)
  end.

Definition emit (e : event) : Body unit := ([e], Value tt).

Definition Return {A} : Body A := ([], Returned).

Definition halted {A} (h : halt) : Body A := ([], Halted h).

Definition defer {A} (e : event) (m : Body A) : Body A :=
  match snd m with
  | Halted _ => m
  | _ => ((fst m ++ [e])%list, snd m)
  end.

Notation "x <- m ;; k" := (bind m (fun x => k))
  (at level 61, m at next level, right associativity).
Notation "m ;;; k" := (bind m (fun _ => k))
  (at level 61, right associativity).

(** ** The server's session handler *)

(** What the operating system answered during one run of
    [handleConnection]. *)
Record Env := mkEnv {
  (** bytes that follow the first line and that the [bufio.Reader] had
      already pulled into its buffer when the first [ReadString] returned *)
  prefetch : nat;
  ptyOpenOk : bool;     (* pty.Open() returned a nil error *)
  setsizeOk : bool;     (* the initial pty.Setsize returned a nil error *)
  startOk : bool        (* cmd.Start() returned a nil error *)
}.

(** The allow-list loop of [handleConnection]. *)
Fixpoint isAllowed (name : string) (allowedCmds : list string) : bool :=
  match allowedCmds with
  | [] => false
  | allowedCmd :: rest =>
    if String.eqb name allowedCmd then true else isAllowed name rest
  end.

(** The command built by [exec.Command(argv[0], argv[1:]...)] and the
    assignments that follow it, with [Path] the name as it was given. *)
Definition mkChild (name : string) (arg : list string) : Cmd :=
  {| Path := name;
     Args := name :: arg;
     Stdin := PtySlave;
     Stdout := PtySlave;
     Stderr := PtySlave;
     Attr := {| Setctty := true; Setsid := true; Pdeathsig := SIGTERM |} |}.

Section Server.

(** [json.Unmarshal([]byte(rawCommand), &cmdStruct)]: the decoded
    struct, or [None] when the decoder reports an error. *)
Variable json_Unmarshal : string -> option Command.

(** [handleConnection(conn, allowedCmds)], main goroutine: [input] is
    the byte stream the peer sends on [conn] (its end is the peer's
    close).  The trace ends where the function returns; [emit Wait] is
    [cmd.Wait()] returning. *)
Definition handleConnection (env : Env) (input : string)
           (allowedCmds : list string) : Body unit :=
  defer (Close Conn) (
    match ReadString LF input with
    | None => emit (Log "Failed to read command: ") ;;; Return
    | Some (rawCommand, _) =>
      emit (Log "Received command: %s") ;;;
      cmdStruct <-
        match json_Unmarshal rawCommand with
        | None =>
          emit (Log "Error decoding command: %v") ;;;
          emit (Close Conn) ;;; Return
        | Some c => ret c
        end ;;
      argv <-
        match Command_ cmdStruct with
        | [] => emit (Log "No command provided") ;;; Return
        | argv0 :: args => ret (argv0, args)
        end ;;
      (if (0 <? List.length allowedCmds)%nat
          && negb (isAllowed (fst argv) allowedCmds)
       then emit (Log "Command %s is not allowed") ;;;
            emit (Close Conn) ;;; Return
       else ret tt) ;;;
      emit (PtyOpen (ptyOpenOk env)) ;;;
      (if ptyOpenOk env then ret tt
       else emit (Log "Error creating PTY:") ;;;
            emit (Close Conn) ;;; Return) ;;;
      defer (Close PtySlave) (
        emit (Log "PTY created") ;;;
        emit (PtySetsize (winsize (Width cmdStruct) (Height cmdStruct))
                         (setsizeOk env)) ;;;
        emit (Log (if setsizeOk env
                   then "Terminal initialized to %dx%d"
                   else "Error setting initial terminal size: %v")) ;;;
        emit (Go CopyPtyToConn) ;;;
        emit (Go CopyConnToPty) ;;;
        emit (Go ResizeLoop) ;;;
        emit (Start (mkChild (fst argv) (snd argv)) (startOk env)) ;;;
        (if startOk env then ret tt
         else emit (Log "Error starting shell:") ;;; Return) ;;;
        emit (Log "Shell started") ;;;
        emit (Notify [SIGINT; SIGTERM; SIGQUIT]) ;;;
        emit (Go KillOnSignal) ;;;
        emit Wait ;;;
        emit (Log "Shell process exited") ;;;
        emit (Log "Connection closed"))
    end).

Definition trace (env : Env) (input : string) (allowedCmds : list string)
  : list event :=
  fst (handleConnection env input allowedCmds).

End Server.

(** *** Reading a trace *)

(** A child process exists once [cmd.Start()] has succeeded. *)
Definition isSpawn (e : event) : bool :=
  match e with Start _ true => true | _ => false end.

Definition spawned (t : list event) : bool := existsb isSpawn t.

Definition launched (g : goroutine) (t : list event) : bool :=
  existsb (fun e => match e, g with
                    | Go CopyPtyToConn, CopyPtyToConn
                    | Go CopyConnToPty, CopyConnToPty
                    | Go ResizeLoop, ResizeLoop
                    | Go KillOnSignal, KillOnSignal
                    | Go WinchLoop, WinchLoop
                    | Go CopyStdinToConn, CopyStdinToConn
                    | Go CopyConnToStdout, CopyConnToStdout => true
                    | _, _ => false
                    end) t.

(** Geometry of the PTY after the resize calls of a trace. *)
Definition ptyAfter (t : list event) (pty : Winsize) : Winsize :=
  fold_left (fun p e => match e with
                        | PtySetsize ws ok => Setsize ok ws p
                        | _ => p
                        end) t pty.

(** ** The resize goroutine *)

Inductive ctl := Continue | Break.

(** One iteration of the [for] loop of the resize goroutine: [read] is
    what [reader.ReadString(LF)] returned ([None] for an error), [ok] is
    the result of [pty.Setsize] should the iteration call it. *)
Definition resizeIter (read : option string) (ok : bool) (pty : Winsize)
  : ctl * list event * Winsize :=
  match read with
  | None => (Break, [], pty)
  | Some message =>
    if HasPrefix message "resize:" then
      let trimmedMessage := TrimSpace message in
      let parts := Split trimmedMessage ":" in
      if (List.length parts =? 3)%nat then
        match Atoi (nth 1 parts ""), Atoi (nth 2 parts "") with
        | Some width, Some height =>
          let ws := winsize (uint16 width) (uint16 height) in
          (Continue,
           [Log "Resize request received";
            PtySetsize ws ok;
            Log (if ok then "Terminal resized to %dx%d"
                 else "Error resizing PTY: %v")],
           Setsize ok ws pty)
        | _, _ =>
          (Continue,
           [Log "Resize request received";
            Log "Error converting dimensions to integers: width error %v, height error %v"],
           pty)
        end
      else
        (Continue,
         [Log "Resize request received"; Log "Invalid resize message format"],
         pty)
    else (Continue, [], pty)
  end.

(** The loop, run on the successive results of [ReadString]; it stops
    at the first read error, and waits when no result is left. *)
Fixpoint resizeLoop (reads : list (option string * bool)) (pty : Winsize)
  : list event * Winsize :=
  match reads with
  | [] => ([], pty)
  | (read, ok) :: rest =>
    match resizeIter read ok pty with
    | (Break, evs, pty') => (evs, pty')
    | (Continue, evs, pty') =>
      ((evs ++ fst (resizeLoop rest pty'))%list, snd (resizeLoop rest pty'))
    end
  end.

(** ** Two readers on one connection

    After the handshake [handleConnection] starts
    [io.Copy(ptyMaster, conn)], which reads [conn] directly, and the
    resize goroutine, which reads the same [conn] through the
    [bufio.Reader] created for the handshake.  Every [conn.Read] hands
    the next bytes of the stream to whichever goroutine called it. *)

Record Session := mkSession {
  wire : string;          (* sent by the peer, not yet read from conn *)
  rbuf : string;          (* held by the bufio.Reader, not yet returned *)
  ptyIn : string;         (* written to ptyMaster so far: the child's input *)
  size : Winsize;         (* geometry of the PTY *)
  ctlTrace : list event   (* effects of the resize goroutine so far *)
}.

Inductive action :=
| CopyRead (n : nat)    (* io.Copy: conn.Read returns n bytes, written to ptyMaster *)
| BufFill (n : nat)     (* ReadString finds no line buffered: conn.Read returns n bytes *)
| CtlLine (ok : bool).  (* ReadString returns a line and the loop body runs *)

Definition canRead (n : nat) (s : Session) : bool :=
  ((1 <=? n) && (n <=? String.length (wire s)))%nat.

Definition step (a : action) (s : Session) : option Session :=
  match a with
  | CopyRead n =>
    if canRead n s then
      Some {| wire := drop n (wire s);
              rbuf := rbuf s;
              ptyIn := ptyIn s ++ take n (wire s);
              size := size s;
              ctlTrace := ctlTrace s |}
    else None
  | BufFill n =>
    match ReadString LF (rbuf s) with
    | Some _ => None
    | None =>
      if canRead n s then
        Some {| wire := drop n (wire s);
                rbuf := rbuf s ++ take n (wire s);
                ptyIn := ptyIn s;
                size := size s;
                ctlTrace := ctlTrace s |}
      else None
    end
  | CtlLine ok =>
    match ReadString LF (rbuf s) with
    | Some (message, rest) =>
      let r := resizeIter (Some message) ok (size s) in
      Some {| wire := wire s;
              rbuf := rest;
              ptyIn := ptyIn s;
              size := snd r;
              ctlTrace := (ctlTrace s ++ snd (fst r))%list |}
    | None => None
    end
  end.

(** A schedule: the reads and loop iterations in the order they happen. *)
Fixpoint run (sched : list action) (s : Session) : option Session :=
  match sched with
  | [] => Some s
  | a :: rest =>
    match step a s with
    | Some s' => run rest s'
    | None => None
    end
  end.

Section Running.

Variable json_Unmarshal : string -> option Command.

(** The session as the goroutines find it when they are launched. *)
Definition running (env : Env) (input : string) (allowedCmds : list string)
  : option Session :=
  let t := trace json_Unmarshal env input allowedCmds in
  if launched ResizeLoop t && launched CopyConnToPty t then
    match ReadString LF input with
    | Some (_, rest) =>
      Some {| wire := drop (prefetch env) rest;
              rbuf := take (prefetch env) rest;
              ptyIn := "";
              size := ptyAfter t freshPty;
              ctlTrace := [] |}
    | None => None
    end
  else None.

End Running.

(** ** The client *)

(** What the operating system answered during the set-up of
    [startClient]. *)
Record ClientEnv := mkClientEnv {
  dialOk : bool;                  (* net.Dial returned a nil error *)
  termSize : option (Z * Z);      (* term.GetSize: width and height, or an error *)
  writeOk : bool;                 (* conn.Write of the descriptor succeeded *)
  makeRawOk : bool                (* term.MakeRaw returned a nil error *)
}.

(** What can happen to the client while it waits on [<-doneCh]. *)
Inductive happening :=
| CopyDone (g : goroutine) (err : bool)
    (* io.Copy returned in that goroutine, with or without an error *)
| Signalled (sig : Signal) (size : option (Z * Z)) (sent : bool)
    (* the process receives [sig]; for SIGWINCH, [size] is what
       term.GetSize then returns and [sent] the result of conn.Write *)
| MainRuns.
    (* the main goroutine is scheduled *)

(** The signals the client asked to be notified of:
    [signal.Notify(sigwinchChan, syscall.SIGWINCH)] and nothing else. *)
Definition clientNotified (sig : Signal) : bool :=
  match sig with SIGWINCH => true | _ => false end.

(** The closure [sendTerminalSize]. *)
Definition sendTerminalSize (size : option (Z * Z)) (sent : bool) : Body unit :=
  emit (GetSize size) ;;;
  match size with
  | None => emit (Log "Error getting terminal size:")
  | Some (width, height) =>
    emit (Write Conn ("resize:" ++ Itoa width ++ ":" ++ Itoa height ++ nl) sent) ;;;
    if sent then ret tt
    else emit (Log "Error sending terminal size to the server:")
  end.

(** The client from [<-doneCh] on.  [closed] tells whether [doneCh] is
    closed.  A copy goroutine that finishes closes [doneCh]; closing a
    closed channel panics.  A signal the program did not ask for
    terminates the process.  The main goroutine goes on once [doneCh]
    is closed: [MainRuns] then stands for the rest of the function, the
    receive, the deferred calls and the return taken as one step, so
    that nothing is scheduled between them. *)
Fixpoint duplexing (hs : list happening) (closed : bool) : Body unit :=
  match hs with
  | [] => halted Waiting
  | CopyDone g err :: rest =>
    (if err
     then emit (Log (match g with
                     | CopyStdinToConn => "Error copying data to the server:"
                     | _ => "Error copying data from the server:"
                     end))
     else ret tt) ;;;
    if closed then halted Panicked else duplexing rest true
  | Signalled sig size sent :: rest =>
    if clientNotified sig
    then sendTerminalSize size sent ;;; duplexing rest closed
    else halted (Killed sig)
  | MainRuns :: rest =>
    if closed then ret tt else duplexing rest closed
  end.

Section Client.

(** [json.Marshal(cmd)]: the encoding, or [None] for an error. *)
Variable json_Marshal : Command -> option string.

(** [startClient(command, socketFlag)]; [hs] is what happens once the
    two copy goroutines are running. *)
Definition startClient (env : ClientEnv) (command : list string)
           (hs : list happening) : Body unit :=
  emit (Dial (dialOk env)) ;;;
  (if dialOk env then ret tt
   else emit (Log "Error connecting to the host:") ;;; Return) ;;;
  defer (Close Conn) (
    emit (GetSize (termSize env)) ;;;
    size <-
      match termSize env with
      | None => emit (Log "Error getting initial terminal size:") ;;; Return
      | Some wh => ret wh
      end ;;
    let cmd := {| Command_ := command;
                  Width := uint16 (fst size);
                  Height := uint16 (snd size) |} in
    cmdBytes <-
      match json_Marshal cmd with
      | None => emit (Log "Error encoding command:") ;;; Return
      | Some b => ret b
      end ;;
    emit (Write Conn (cmdBytes ++ nl) (writeOk env)) ;;;
    (if writeOk env then ret tt
     else emit (Log "Error sending command to the server:") ;;; Return) ;;;
    emit (Notify [SIGWINCH]) ;;;
    emit (Go WinchLoop) ;;;
    emit (MakeRaw (makeRawOk env)) ;;;
    (if makeRawOk env then ret tt
     else emit (Log "Error setting terminal to raw mode:") ;;; Return) ;;;
    defer Restore (
      emit (Go CopyStdinToConn) ;;;
      emit (Go CopyConnToStdout) ;;;
      duplexing hs false)).

End Client.

(** ** Dispatch in [main] *)

(** The command line after [flag.Parse()]. *)
Record Flags := mkFlags {
  helpFlag : bool;
  helpFlagLong : bool;
  startFlag : bool;
  socketFlag : string;
  allowedCmds : list string;
  flagArgs : list string        (* flag.Args(): the positional arguments *)
}.

Inductive invocation :=
| Usage
| StartServer (allowed : list string) (socket : string)
| StartClient (command : list string) (socket : string).

(** [main]: [arg0] is [os.Args[0]] and [shell] is [os.Getenv("SHELL")]. *)
Definition main (arg0 shell : string) (f : Flags) : invocation :=
  if helpFlag f || helpFlagLong f then Usage
  else if startFlag f then StartServer (allowedCmds f) (socketFlag f)
  else
    let command :=
      if String.eqb (Base arg0) "hrun" && (List.length (flagArgs f) =? 0)%nat
      then ["sh"; "-c"; shell]
      else flagArgs f in
    StartClient command (socketFlag f).

(** The descriptor the client sends, as a struct: what [main] and
    [startClient] together ask the server to run. *)
Definition requested (arg0 shell : string) (f : Flags) : option (list string) :=
  match main arg0 shell f with
  | StartClient command _ => Some command
  | _ => None
  end.

(** ** The listener and the termination of sessions

    [startServer] registers a channel for SIGINT, SIGTERM and SIGQUIT
    and a goroutine that closes [doneCh] when a signal arrives; the
    accept loop returns once [doneCh] is closed, and [main] returns
    right after [startServer], which ends the process and every
    goroutine in it.  Each running session has registered a channel of
    its own for the same signals, and the goroutine [KillOnSignal]
    that closes the connection and then kills the child's process group. *)

(** Where the goroutine [KillOnSignal] of a session stands. *)
Inductive handlerPc :=
| AwaitSignal      (* blocked in <-sigCh *)
| AfterClose       (* conn.Close() done *)
| AfterKill.       (* syscall.Kill(-cmd.Process.Pid, syscall.SIGKILL) done *)

(** A session between [cmd.Start] and the child's exit. *)
Record Sess := mkSess {
  pid : Z;                            (* cmd.Process.Pid *)
  pending : bool;                     (* the session's sigCh holds a signal *)
  pc : handlerPc;
  connClosed : bool;                  (* the connection is closed *)
  received : list (Z * Signal)        (* signals sent to the child: target and signal *)
}.

Record Server := mkServer {
  alive : bool;            (* the server process exists *)
  sigCh : bool;            (* the sigCh of startServer holds a signal *)
  doneCh : bool;           (* doneCh is closed *)
  returned : bool;         (* startServer has returned: the listener is closed *)
  sessions : list Sess
}.

(** The signals both [signal.Notify] calls ask for. *)
Definition serverNotified (sig : Signal) : bool :=
  match sig with
  | SIGINT | SIGTERM | SIGQUIT => true
  | _ => false
  end.

(** A signal with no handler that leaves the process alone. *)
Definition ignoredByDefault (sig : Signal) : bool :=
  match sig with SIGWINCH => true | _ => false end.

(** The end of the server process: the kernel closes its sockets, and
    each child, started with [Pdeathsig: syscall.SIGTERM], is sent
    SIGTERM (the child alone, not its group).  [received] records what
    the program and [Pdeathsig] send; the hangup that the terminal
    delivers once the kernel has closed the PTY master is not recorded. *)
Definition atExit (x : Sess) : Sess :=
  {| pid := pid x; pending := pending x; pc := pc x;
     connClosed := true;
     received := (received x ++ [(pid x, SIGTERM)])%list |}.

Definition exit (s : Server) : Server :=
  {| alive := false; sigCh := sigCh s; doneCh := doneCh s;
     returned := returned s; sessions := map atExit (sessions s) |}.

(** One step of [KillOnSignal]: the receive from [sigCh] together with
    [conn.Close()], then the kill. *)
Definition handlerStep (x : Sess) : option Sess :=
  match pc x with
  | AwaitSignal =>
    if pending x
    then Some {| pid := pid x; pending := false; pc := AfterClose;
                 connClosed := true; received := received x |}
    else None
  | AfterClose =>
    Some {| pid := pid x; pending := pending x; pc := AfterKill;
            connClosed := connClosed x;
            received := (received x ++ [(- pid x, SIGKILL)])%list |}
  | AfterKill => None
  end.

Fixpoint updateNth (i : nat) (f : Sess -> option Sess) (l : list Sess)
  : option (list Sess) :=
  match i, l with
  | O, x :: r => option_map (fun y => y :: r) (f x)
  | S j, x :: r => option_map (cons x) (updateNth j f r)
  | _, [] => None
  end.

Inductive move :=
| Deliver (sig : Signal)   (* the server process receives a signal *)
| Watcher                  (* <-sigCh; log; close(doneCh) in startServer's goroutine *)
| MainLoop                 (* the select of the accept loop takes <-doneCh *)
| Handler (i : nat).       (* KillOnSignal of session i executes a statement *)

Definition serverStep (m : move) (s : Server) : option Server :=
  if negb (alive s) then None else
  match m with
  | Deliver sig =>
    if serverNotified sig then
      Some {| alive := true; sigCh := true; doneCh := doneCh s;
              returned := returned s;
              sessions :=
                map (fun x => {| pid := pid x;
                                 pending := true;
                                 pc := pc x;
                                 connClosed := connClosed x;
                                 received := received x |})
                    (sessions s) |}
    else if ignoredByDefault sig then Some s
    else Some (exit s)
  | Watcher =>
    if sigCh s && negb (doneCh s) then
      Some {| alive := true; sigCh := false; doneCh := true;
              returned := returned s; sessions := sessions s |}
    else None
  | MainLoop =>
    if doneCh s && negb (returned s) then
      Some (exit {| alive := true; sigCh := sigCh s; doneCh := true;
                    returned := true; sessions := sessions s |})
    else None
  | Handler i =>
    match updateNth i handlerStep (sessions s) with
    | Some l => Some {| alive := true; sigCh := sigCh s; doneCh := doneCh s;
                        returned := returned s; sessions := l |}
    | None => None
    end
  end.

Fixpoint serverRun (ms : list move) (s : Server) : option Server :=
  match ms with
  | [] => Some s
  | m :: rest =>
    match serverStep m s with
    | Some s' => serverRun rest s'
    | None => None
    end
  end.

(** The child's process group was sent SIGKILL. *)
Definition groupKilled (x : Sess) : bool :=
  existsb (fun r => (fst r =? - pid x)
                    && match snd r with SIGKILL => true | _ => false end)
          (received x).

(** A session whose child runs. *)
Definition active (p : Z) : Sess :=
  {| pid := p; pending := false; pc := AwaitSignal; connClosed := false;
     received := [] |}.

(** ** A codec for the descriptor line

    [encoding/json] is a parameter of [handleConnection] and of
    [startClient].  Where a concrete codec is needed, this one is used:
    [json.Marshal] of the struct [Command] is the line
    [{"Command":["a","b"],"Width":80,"Height":24}], with ["Command":[]]
    for an empty slice and ["Command":null] for a nil one (the slices of
    this program, [flag.Args()] and a literal, are never nil).
    [encodeCommand] writes that form for strings that need no escape,
    and [decodeCommand] reads that form only: ASCII strings without
    escapes, numbers without a leading zero, and nothing but JSON white
    space after the closing brace. *)
Module Wire.

Definition quote : ascii := ascii_of_N 34.
Definition backslash : ascii := ascii_of_N 92.

(** [expect lit s]: [s] without its prefix [lit]. *)
Fixpoint expect (lit s : string) : option string :=
  match lit, s with
  | EmptyString, _ => Some s
  | String a l, String b r => if Ascii.eqb a b then expect l r else None
  | _, _ => None
  end.

(** The characters of a string literal up to its closing quote. *)
Fixpoint strBody (s : string) : option (string * string) :=
  match s with
  | EmptyString => None
  | String c r =>
    if Ascii.eqb c quote then Some (EmptyString, r)
    else if Ascii.eqb c backslash then None
    else if (N_of_ascii c <? 32)%N then None
    else if (127 <? N_of_ascii c)%N then None
    else match strBody r with
         | Some (v, rest) => Some (String c v, rest)
         | None => None
         end
  end.

(** Elements of an array of strings after its opening bracket. *)
Fixpoint elems (fuel : nat) (s : string) : option (list string * string) :=
  match fuel with
  | O => None
  | S fuel' =>
    match expect (String quote EmptyString) s with
    | None => None
    | Some s1 =>
      match strBody s1 with
      | None => None
      | Some (v, s2) =>
        match s2 with
        | String "]" r => Some ([v], r)
        | String "," r =>
          match elems fuel' r with
          | Some (vs, rest) => Some (v :: vs, rest)
          | None => None
          end
        | _ => None
        end
      end
    end
  end.

Definition strings (s : string) : option (list string * string) :=
  match s with
  | String "n" _ =>
    match expect "null" s with Some r => Some ([], r) | None => None end
  | String "[" (String "]" r) => Some ([], r)
  | String "[" r => elems (String.length r) r
  | _ => None
  end.

(** A run of decimal digits and what follows it. *)
Fixpoint number (acc : option Z) (s : string) : option (Z * string) :=
  match s with
  | EmptyString => match acc with Some n => Some (n, s) | None => None end
  | String c r =>
    match digit c with
    | Some d => number (Some (match acc with Some n => n * 10 + d | None => d end)) r
    | None => match acc with Some n => Some (n, s) | None => None end
    end
  end.

(** A JSON number has no leading zero. *)
Definition leadingZero (s : string) : bool :=
  match s with
  | String "0" (String c _) =>
    match digit c with Some _ => true | None => false end
  | _ => false
  end.

Definition uint16Field (s : string) : option (Z * string) :=
  if leadingZero s then None
  else
    match number None s with
    | Some (n, r) => if n <? 2 ^ 16 then Some (n, r) else None
    | None => None
    end.

(** JSON white space: space, tab, line feed and carriage return. *)
Fixpoint jsonSpaces (s : string) : bool :=
  match s with
  | EmptyString => true
  | String c r =>
    let n := N_of_ascii c in
    ((n =? 32)%N || (n =? 9)%N || (n =? 10)%N || (n =? 13)%N) && jsonSpaces r
  end.

Definition decodeCommand (line : string) : option Command :=
  match expect ("{" ++ String quote "Command" ++ String quote ":") line with
  | None => None
  | Some s1 =>
    match strings s1 with
    | None => None
    | Some (argv, s2) =>
      match expect ("," ++ String quote "Width" ++ String quote ":") s2 with
      | None => None
      | Some s3 =>
        match uint16Field s3 with
        | None => None
        | Some (w, s4) =>
          match expect ("," ++ String quote "Height" ++ String quote ":") s4 with
          | None => None
          | Some s5 =>
            match uint16Field s5 with
            | None => None
            | Some (h, s6) =>
              match expect "}" s6 with
              | Some s7 =>
                if jsonSpaces s7
                then Some {| Command_ := argv; Width := w; Height := h |}
                else None
              | None => None
              end
            end
          end
        end
      end
    end
  end.

(** The descriptor line for [argv] and a terminal of [w] columns and
    [h] rows, for the examples below. *)
Definition q (s : string) : string := String quote s ++ String quote "".

Definition descriptor (argv : string) (w h : string) : string :=
  "{" ++ q "Command" ++ ":" ++ argv ++ "," ++ q "Width" ++ ":" ++ w
      ++ "," ++ q "Height" ++ ":" ++ h ++ "}" ++ nl.

Definition encodeCommand (c : Command) : option string :=
  let argv :=
    match Command_ c with
    | [] => "[]"
    | a :: r =>
      "[" ++ q a ++ fold_right (fun x acc => "," ++ q x ++ acc) "" r
          ++ "]"
    end in
  Some ("{" ++ q "Command" ++ ":" ++ argv ++ ","
            ++ q "Width" ++ ":" ++ Itoa (Width c) ++ ","
            ++ q "Height" ++ ":" ++ Itoa (Height c) ++ "}").

End Wire.

(** ** Predicates and concrete inputs used in the statements *)

(** [In e l] fails on a concrete list [l] none of whose elements can
    equal [e]. *)
Ltac absent H :=
  cbn in H; repeat (destruct H as [H|H]; [discriminate H|]); contradiction.

(** The three ways a descriptor line is turned down. *)
Inductive rejected (json_Unmarshal : string -> option Command)
          (allowedCmds : list string) (rawCommand : string) : Prop :=
| rej_unparsable :
    json_Unmarshal rawCommand = None ->
    rejected json_Unmarshal allowedCmds rawCommand
| rej_empty c :
    json_Unmarshal rawCommand = Some c ->
    Command_ c = [] ->
    rejected json_Unmarshal allowedCmds rawCommand
| rej_disallowed c argv0 args :
    json_Unmarshal rawCommand = Some c ->
    Command_ c = argv0 :: args ->
    allowedCmds <> [] ->
    ~ In argv0 allowedCmds ->
    rejected json_Unmarshal allowedCmds rawCommand.

(** Descriptor lines used as concrete inputs. *)
Definition lsLine : string :=
  Wire.descriptor ("[" ++ Wire.q "ls" ++ "," ++ Wire.q "-la" ++ "]") "80" "24".

Definition rmLine : string :=
  Wire.descriptor ("[" ++ Wire.q "rm" ++ "," ++ Wire.q "-rf" ++ ","
                       ++ Wire.q "/" ++ "]") "80" "24".

Definition catLine : string :=
  Wire.descriptor ("[" ++ Wire.q "cat" ++ "]") "80" "24".

Definition allOk : Env :=
  {| prefetch := 0; ptyOpenOk := true; setsizeOk := true; startOk := true |}.

(** Bytes that [Atoi] accepts are ASCII, not white space and not [":"]. *)
Definition plain (c : ascii) : bool :=
  (code c <? 128)%N && negb (isAsciiSpace c) && negb (Ascii.eqb c ":").

(** A typed command line that reached the reader's buffer. *)
Definition typedLs : Session :=
  {| wire := ""; rbuf := "ls -la" ++ nl ++ "pwd"; ptyIn := "";
     size := winsize 80 24; ctlTrace := [] |}.

(** A resize line with a field missing, and an environment in which
    the initial resize of the PTY fails. *)
Definition shortResize : string := "resize:120" ++ nl.

Definition resize120x40 : string := "resize:120:40" ++ nl.

Definition resizeFails : Env :=
  {| prefetch := 0; ptyOpenOk := true; setsizeOk := false; startOk := true |}.

(** A run of the two readers from the start of the session. *)
Definition runFrom (json_Unmarshal : string -> option Command) (env : Env)
           (input : string) (allowedCmds : list string) (sched : list action)
  : option Session :=
  match running json_Unmarshal env input allowedCmds with
  | Some s => run sched s
  | None => None
  end.

(** The client asks for [cat] on an 80x24 terminal, its window is
    resized to 120x40, and the user types [hello]. *)
Definition resizeThenHello : string :=
  catLine ++ resize120x40 ++ "hello" ++ nl.

(** The user types [ab], then the window is resized to 120x40. *)
Definition typedThenResize : string :=
  catLine ++ "ab" ++ resize120x40.

(** The whole of [typedThenResize] reached the server before the
    handshake read, so that the 16 bytes after the descriptor line are in
    the reader's buffer. *)
Definition oneSegment : Env :=
  {| prefetch := 16; ptyOpenOk := true; setsizeOk := true; startOk := true |}.

(** Happenings that leave the client waiting while [doneCh] is open:
    a window change, or the main goroutine finding [doneCh] open. *)
Definition quiet (h : happening) : bool :=
  match h with
  | Signalled sig _ _ => clientNotified sig
  | MainRuns => true
  | CopyDone _ _ => false
  end.

(** Effects of the client that leave the terminal mode alone. *)
Definition keepsMode (e : event) : bool :=
  match e with
  | MakeRaw _ | Restore => false
  | _ => true
  end.

Definition clientOk : ClientEnv :=
  {| dialOk := true; termSize := Some (80, 24); writeOk := true;
     makeRawOk := true |}.

Definition hrunFlags (args : list string) : Flags :=
  {| helpFlag := false; helpFlagLong := false; startFlag := false;
     socketFlag := "/tmp/hrun.sock"; allowedCmds := []; flagArgs := args |}.

(** The window changes to 120x40, then the server closes the
    connection. *)
Definition resizedThenClosed : list happening :=
  [Signalled SIGWINCH (Some (120, 40)) true;
   CopyDone CopyConnToStdout false;
   MainRuns].

(** The client process is sent SIGTERM while it waits. *)
Definition terminated : list happening :=
  [Signalled SIGTERM None false; MainRuns].

(** Scenario D of the design: a server with three active sessions. *)
Definition threeSessions : Server :=
  {| alive := true; sigCh := false; doneCh := false; returned := false;
     sessions := [active 101; active 102; active 103] |}.

(** ** Definitions for the further properties *)

(** Value of a decimal numeral read most significant digit first, from
    the accumulator [acc]: what [Strconv.digits] computes on its text. *)
Fixpoint uvalue (acc : Z) (d : Decimal.uint) : Z :=
  match d with
  | Decimal.Nil => acc
  | Decimal.D0 l => uvalue (acc * 10 + 0) l
  | Decimal.D1 l => uvalue (acc * 10 + 1) l
  | Decimal.D2 l => uvalue (acc * 10 + 2) l
  | Decimal.D3 l => uvalue (acc * 10 + 3) l
  | Decimal.D4 l => uvalue (acc * 10 + 4) l
  | Decimal.D5 l => uvalue (acc * 10 + 5) l
  | Decimal.D6 l => uvalue (acc * 10 + 6) l
  | Decimal.D7 l => uvalue (acc * 10 + 7) l
  | Decimal.D8 l => uvalue (acc * 10 + 8) l
  | Decimal.D9 l => uvalue (acc * 10 + 9) l
  end.

(** The range of Go's [int]. *)
Definition isInt (n : Z) : Prop :=
  - 2 ^ (intSize - 1) <= n <= 2 ^ (intSize - 1) - 1.

(** A call of [cmd.Start], whatever its result. *)
Definition isStart (e : event) : bool :=
  match e with Start _ _ => true | _ => false end.

(** The last two elements of a concrete list, cut off. *)
Ltac cut_last_two :=
  match goal with
  | |- exists pre, ?l = (pre ++ _)%list /\ _ =>
    exists (removelast (removelast l)); split; [reflexivity|]
  end.

(** A stream that ends before its first line does: the peer connected,
    sent half a descriptor and closed. *)
Definition halfLine : string := "{" ++ Wire.q "Command" ++ ":[".

(** Reads none of which is an error. *)
Definition noReadError (reads : list (option string * bool)) : bool :=
  forallb (fun r => match fst r with Some _ => true | None => false end) reads.

(** What the resize loop may do: log, or ask the PTY for a size whose
    rows and columns fit [uint16] and whose pixel sizes are zero. *)
Definition resizeEffect (e : event) : Prop :=
  match e with
  | Log _ => True
  | PtySetsize ws _ =>
    0 <= Rows ws < 2 ^ 16 /\ 0 <= Cols ws < 2 ^ 16 /\ X ws = 0 /\ Y ws = 0
  | _ => False
  end.

(** Three window sizes in a row, the second one malformed. *)
Definition threeResizes : list (option string * bool) :=
  [(Some ("resize:100:30" ++ nl), true);
   (Some ("resize:x:y" ++ nl), true);
   (Some "ls", true)].

(** [merge a b m]: [m] is an interleaving of [a] and [b], each in its
    own order. *)
Inductive merge : string -> string -> string -> Prop :=
| merge_nil : merge "" "" ""
| merge_left c a b m : merge a b m -> merge (String c a) b (String c m)
| merge_right c a b m : merge a b m -> merge a (String c b) (String c m).

(** A schedule in which only the copier reads. *)
Definition onlyCopy (sched : list action) : bool :=
  forallb (fun a => match a with CopyRead _ => true | _ => false end) sched.

(** The session of [resizeThenHello] as the goroutines find it. *)
Definition helloSession : Session :=
  {| wire := resize120x40 ++ "hello" ++ nl; rbuf := ""; ptyIn := "";
     size := winsize 80 24; ctlTrace := [] |}.

(** A file name: not empty and without a slash. *)
Definition isFileName (name : string) : Prop :=
  name <> "" /\ ~ In "/"%char (list_ascii_of_string name).

(** ** The accept loop of [startServer]

    A connection is a number.  [listener.Accept()] returns a connection
    or an error; the [select] of the loop takes either [<-doneCh], when
    it is closed, or the channel that [acceptConn] returned for this
    iteration. *)

Inductive listenerEvent :=
| Listening (socket : string) (ok : bool)    (* net.Listen("unix", socket) *)
| Logged (msg : string)
| Watching                                   (* go func() { <-sigCh; close(doneCh) }() *)
| Handling (conn : nat) (allowedCmds : list string)
                                             (* go handleConnection(conn, allowedCmds) *)
| ListenerClosed.                            (* the deferred listener.Close() *)

(** [acceptConn(listener)], given what [listener.Accept()] returns: the
    goroutine sends the connection on the channel, or logs the error and
    closes the channel ([None]). *)
Definition acceptConn (accepted : option nat)
  : list listenerEvent * option nat :=
  match accepted with
  | Some conn => ([], Some conn)
  | None => ([Logged "Error accepting connection:"], None)
  end.

Inductive selected :=
| OnDone                              (* case <-doneCh *)
| OnAccept (accepted : option nat).   (* case conn, ok := <-acceptConn(listener) *)

(** The [for { select { ... } }] loop. *)
Fixpoint acceptLoop (allowedCmds : list string) (sel : list selected)
  : list listenerEvent * status unit :=
  match sel with
  | [] => ([], Halted Waiting)
  | OnDone :: _ => ([Logged "Shutting down server..."], Returned)
  | OnAccept accepted :: rest =>
    match acceptConn accepted with
    | (evs, Some conn) =>
      ((evs ++ Handling conn allowedCmds
            :: fst (acceptLoop allowedCmds rest))%list,
       snd (acceptLoop allowedCmds rest))
    | (evs, None) =>
      ((evs ++ [Logged "Listener closed, shutting down server..."])%list,
       Returned)
    end
  end.

(** [startServer(allowedCmds, socketFlag)]: a failure to listen panics;
    the listener is closed when the function returns. *)
Definition startServer (listenOk : bool) (allowedCmds : list string)
           (socket : string) (sel : list selected)
  : list listenerEvent * status unit :=
  if listenOk then
    let setup := [Listening socket true; Logged "Server is running on %s";
                  Watching] in
    match snd (acceptLoop allowedCmds sel) with
    | Halted h => ((setup ++ fst (acceptLoop allowedCmds sel))%list, Halted h)
    | st =>
      ((setup ++ fst (acceptLoop allowedCmds sel) ++ [ListenerClosed])%list,
       st)
    end
  else ([Listening socket false], Halted Panicked).

(** The handlers a listener trace starts: connection and allow-list. *)
Definition handlers (t : list listenerEvent) : list (nat * list string) :=
  flat_map (fun e => match e with
                     | Handling conn allowed => [(conn, allowed)]
                     | _ => []
                     end) t.

(** The [select] that ends the loop: shutdown, or a failed accept. *)
Definition stops (s : selected) : bool :=
  match s with
  | OnDone | OnAccept None => true
  | OnAccept (Some _) => false
  end.

Definition accepts (conns : list nat) : list selected :=
  map (fun conn => OnAccept (Some conn)) conns.

(** Window changes only: SIGWINCH, each with what [term.GetSize] and
    [conn.Write] then return. *)
Definition onlyWinch (hs : list happening) : bool :=
  forallb (fun h => match h with
                    | Signalled SIGWINCH _ _ => true
                    | _ => false
                    end) hs.

(** Both copy directions end before the main goroutine has run. *)
Definition bothEnd : list happening :=
  [CopyDone CopyConnToStdout false; CopyDone CopyStdinToConn true; MainRuns].

(** * Properties *)

(** ** The library functions on sample inputs *)

Example TrimSpace_samples :
  TrimSpace ("  resize:80:24" ++ String (ascii_of_N 13) nl) = "resize:80:24"
  /\ TrimSpace ("a b" ++ nl ++ nl) = "a b"
  /\ TrimSpace (String (ascii_of_N 194) (String (ascii_of_N 160) "ab"))
     = "ab"
  /\ TrimSpace nl = "".
Proof. repeat split. Qed.

Example Split_samples :
  Split "resize:80:24" ":" = ["resize"; "80"; "24"]
  /\ Split "resize:80" ":" = ["resize"; "80"]
  /\ Split "a::" ":" = ["a"; ""; ""]
  /\ Split "" ":" = [""].
Proof. repeat split. Qed.

Example Atoi_samples :
  Atoi "-1" = Some (-1)
  /\ Atoi "+5" = Some 5
  /\ Atoi "007" = Some 7
  /\ Atoi "" = None
  /\ Atoi "-" = None
  /\ Atoi " 1" = None
  /\ Atoi "1_0" = None
  /\ Atoi "12a" = None
  /\ Atoi "9223372036854775807" = Some 9223372036854775807
  /\ Atoi "9223372036854775808" = None
  /\ Atoi "-9223372036854775808" = Some (-9223372036854775808).
Proof. repeat split. Qed.

Example Base_samples :
  Base "/usr/bin/hrun" = "hrun"
  /\ Base "./hrun" = "hrun"
  /\ Base "hrun/" = "hrun"
  /\ Base "" = "."
  /\ Base "///" = "/".
Proof. repeat split. Qed.

Example ReadString_samples :
  ReadString LF ("abc" ++ nl ++ "def") = Some ("abc" ++ nl, "def")
  /\ ReadString LF "abc" = None.
Proof. repeat split. Qed.

(** The codec reads back what it writes. *)
Example codec_samples :
  Wire.encodeCommand {| Command_ := ["ls"; "-la"]; Width := 80; Height := 24 |}
  = Some (take (String.length lsLine - 1) lsLine)
  /\ Wire.decodeCommand lsLine
     = Some {| Command_ := ["ls"; "-la"]; Width := 80; Height := 24 |}
  /\ Wire.decodeCommand ("not a descriptor" ++ nl) = None.
Proof. repeat split. Qed.

(** ** Rejected descriptors (C3) and accepted ones (C4) *)

Lemma isAllowed_In (name : string) (allowedCmds : list string) :
  isAllowed name allowedCmds = true <-> In name allowedCmds.
Proof.
  induction allowedCmds as [|a l IH]; simpl.
  - split; [discriminate | tauto].
  - destruct (String.eqb_spec name a) as [->|Hne].
    + split; auto.
    + rewrite IH. split; [auto | intros [E|H]; congruence].
Qed.

Lemma isAllowed_false (name : string) (allowedCmds : list string) :
  ~ In name allowedCmds -> isAllowed name allowedCmds = false.
Proof.
  intros H. destruct (isAllowed name allowedCmds) eqn:E; auto.
  apply isAllowed_In in E. contradiction.
Qed.

(** C3. On every connection whose descriptor line does not decode, or
    decodes to an empty argv, or names a program that is absent from a
    non-empty allow-list, [handleConnection] never calls [cmd.Start]
    (no child process is spawned, no goroutine is launched) and it
    closes the connection: closing it is the last thing it does. *)
Theorem C3_rejected_descriptor_never_spawns :
  forall (json_Unmarshal : string -> option Command) (env : Env)
         (input rawCommand rest : string) (allowedCmds : list string),
    ReadString LF input = Some (rawCommand, rest) ->
    rejected json_Unmarshal allowedCmds rawCommand ->
    let t := trace json_Unmarshal env input allowedCmds in
    (forall c ok, ~ In (Start c ok) t)
    /\ (forall g, ~ In (Go g) t)
    /\ spawned t = false
    /\ In (Close Conn) t
    /\ last t Wait = Close Conn.
Proof.
  intros ju env input raw rest allowed Hread Hrej t.
  subst t. unfold trace, handleConnection. rewrite Hread.
  destruct Hrej as [Hnone | c Hsome Hempty | c argv0 args Hsome Hargv Hne Hnot].
  - rewrite Hnone. cbn.
    repeat split; try reflexivity; try tauto;
      intros; intros [H|[H|[H|[H|[]]]]]; discriminate H.
  - rewrite Hsome. cbn. rewrite Hempty. cbn.
    repeat split; try reflexivity; try tauto;
      intros; intros [H|[H|[H|[]]]]; discriminate H.
  - rewrite Hsome. cbn. rewrite Hargv. cbn.
    rewrite (isAllowed_false _ _ Hnot).
    destruct allowed as [|a l]; [congruence|]. cbn.
    repeat split; try reflexivity; try tauto;
      intros; intros [H|[H|[H|[H|[]]]]]; discriminate H.
Qed.

(** Scenario B of the design, second half: the server allows only [ls]
    and the client asks for [rm -rf /]. *)
Lemma C3_rejected_descriptor_never_spawns_witness :
  ReadString LF rmLine = Some (rmLine, "")
  /\ rejected Wire.decodeCommand ["ls"] rmLine
  /\ spawned (trace Wire.decodeCommand allOk rmLine ["ls"]) = false
  /\ In (Close Conn) (trace Wire.decodeCommand allOk rmLine ["ls"]).
Proof.
  assert (Hread : ReadString LF rmLine = Some (rmLine, "")) by reflexivity.
  assert (Hrej : rejected Wire.decodeCommand ["ls"] rmLine).
  { apply (rej_disallowed _ _ _
             {| Command_ := ["rm"; "-rf"; "/"]; Width := 80; Height := 24 |}
             "rm" ["-rf"; "/"]).
    - reflexivity.
    - reflexivity.
    - discriminate.
    - intros [H|[]]. discriminate H. }
  split; [exact Hread|]. split; [exact Hrej|].
  pose proof (C3_rejected_descriptor_never_spawns
                Wire.decodeCommand allOk rmLine rmLine "" ["ls"] Hread Hrej)
    as (_ & _ & Hs & Hc & _).
  split; [exact Hs | exact Hc].
Defined.

(** The whole trace of a connection whose descriptor is accepted and
    for which a PTY pair could be opened. *)
Lemma accepted_trace :
  forall (json_Unmarshal : string -> option Command) (env : Env)
         (input rawCommand rest : string) (allowedCmds : list string)
         (c : Command) (argv0 : string) (args : list string),
    ReadString LF input = Some (rawCommand, rest) ->
    json_Unmarshal rawCommand = Some c ->
    Command_ c = argv0 :: args ->
    allowedCmds = [] \/ In argv0 allowedCmds ->
    ptyOpenOk env = true ->
    trace json_Unmarshal env input allowedCmds
    = ([Log "Received command: %s"; PtyOpen true; Log "PTY created";
        PtySetsize (winsize (Width c) (Height c)) (setsizeOk env);
        Log (if setsizeOk env
             then "Terminal initialized to %dx%d"
             else "Error setting initial terminal size: %v");
        Go CopyPtyToConn; Go CopyConnToPty; Go ResizeLoop]
       ++ Start (mkChild argv0 args) (startOk env)
       :: (if startOk env
           then [Log "Shell started"; Notify [SIGINT; SIGTERM; SIGQUIT];
                 Go KillOnSignal; Wait; Log "Shell process exited";
                 Log "Connection closed"]
           else [Log "Error starting shell:"])
       ++ [Close PtySlave; Close Conn])%list.
Proof.
  intros ju env input raw rest allowed c argv0 args
         Hread Hsome Hargv Hallow Hopen.
  unfold trace, handleConnection.
  rewrite Hread, Hsome. cbn. rewrite Hargv.
  assert (Hgate : isAllowed argv0 allowed = true \/ allowed = []).
  { destruct Hallow as [-> | Hin]; [now right | left; now apply isAllowed_In]. }
  destruct allowed as [|a l].
  2: destruct Hgate as [Hgate | Hgate]; [|discriminate Hgate].
  all: cbn -[isAllowed]; try rewrite Hgate; cbn -[isAllowed]; rewrite Hopen; cbn.
  all: destruct (startOk env); reflexivity.
Qed.

(** C4 (as amended). For every descriptor that decodes to a non-empty
    argv whose argv[0] passes the allow-list check (or when no allow-list
    is configured), provided [pty.Open] succeeds, [handleConnection]
    calls [cmd.Start] exactly once, on the command built from argv[0] as
    the program and argv[1:] as the arguments, whose stdin, stdout and
    stderr are the PTY slave and which runs in a new session; a child
    process exists exactly when that call succeeds.  The initial geometry
    of the PTY is the one the handler has installed when it launches its
    three goroutines, which it does before it calls [cmd.Start]: the
    handler asks for the descriptor's width and height, once and for
    nothing else, so that the session the goroutines find has the
    descriptor's geometry when that [pty.Setsize] succeeded and the
    geometry of the fresh PTY when it failed.  Nothing is said of the
    geometry at the call of [cmd.Start] itself: the resize goroutine is
    already running then. *)
Theorem C4_accepted_descriptor_starts_exact_argv :
  forall (json_Unmarshal : string -> option Command) (env : Env)
         (input rawCommand rest : string) (allowedCmds : list string)
         (c : Command) (argv0 : string) (args : list string),
    ReadString LF input = Some (rawCommand, rest) ->
    json_Unmarshal rawCommand = Some c ->
    Command_ c = argv0 :: args ->
    allowedCmds = [] \/ In argv0 allowedCmds ->
    ptyOpenOk env = true ->
    let t := trace json_Unmarshal env input allowedCmds in
    let child :=
      {| Path := argv0; Args := argv0 :: args;
         Stdin := PtySlave; Stdout := PtySlave; Stderr := PtySlave;
         Attr := {| Setctty := true; Setsid := true; Pdeathsig := SIGTERM |} |} in
    exists setup post,
      t = (setup ++ Go CopyPtyToConn :: Go CopyConnToPty :: Go ResizeLoop
                 :: Start child (startOk env) :: post)%list
      /\ (forall g, ~ In (Go g) setup)
      /\ (forall c' ok, ~ In (Start c' ok) setup)
      /\ (forall c' ok, ~ In (Start c' ok) post)
      /\ spawned t = startOk env
      /\ In (PtySetsize (winsize (Width c) (Height c)) (setsizeOk env)) setup
      /\ (forall ws ok, In (PtySetsize ws ok) t ->
          ws = winsize (Width c) (Height c) /\ ok = setsizeOk env)
      /\ (setsizeOk env = true ->
          ptyAfter setup freshPty = winsize (Width c) (Height c))
      /\ (setsizeOk env = false -> ptyAfter setup freshPty = freshPty)
      /\ running json_Unmarshal env input allowedCmds
         = Some {| wire := drop (prefetch env) rest;
                   rbuf := take (prefetch env) rest;
                   ptyIn := "";
                   size := ptyAfter setup freshPty;
                   ctlTrace := [] |}.
Proof.
  intros ju env input raw rest allowed c argv0 args
         Hread Hsome Hargv Hallow Hopen t child.
  assert (Ht := accepted_trace ju env input raw rest allowed c argv0 args
                  Hread Hsome Hargv Hallow Hopen).
  exists [Log "Received command: %s"; PtyOpen true; Log "PTY created";
          PtySetsize (winsize (Width c) (Height c)) (setsizeOk env);
          Log (if setsizeOk env
               then "Terminal initialized to %dx%d"
               else "Error setting initial terminal size: %v")].
  exists ((if startOk env
           then [Log "Shell started"; Notify [SIGINT; SIGTERM; SIGQUIT];
                 Go KillOnSignal; Wait; Log "Shell process exited";
                 Log "Connection closed"]
           else [Log "Error starting shell:"])
          ++ [Close PtySlave; Close Conn])%list.
  split; [exact Ht|].
  split; [intros g H; absent H|].
  split; [intros c' ok H; absent H|].
  split; [intros c' ok H; destruct (startOk env); absent H|].
  split; [subst t; rewrite Ht; destruct (startOk env); reflexivity|].
  split; [cbn; tauto|].
  split.
  { intros ws ok H. subst t. rewrite Ht in H.
    destruct (startOk env); cbn in H;
      repeat (destruct H as [H|H];
              [first [discriminate H | injection H as <- <-; now split]|]);
      contradiction. }
  split; [intros Hs; rewrite Hs; reflexivity|].
  split; [intros Hs; rewrite Hs; reflexivity|].
  unfold running. fold t. rewrite Hread.
  subst t. rewrite Ht.
  destruct (startOk env); destruct (setsizeOk env); reflexivity.
Qed.

(** Scenario B of the design, first half: the server allows only [ls]
    and the client asks for [ls -la]. *)
Lemma C4_accepted_descriptor_starts_exact_argv_witness :
  ReadString LF lsLine = Some (lsLine, "")
  /\ Wire.decodeCommand lsLine
     = Some {| Command_ := ["ls"; "-la"]; Width := 80; Height := 24 |}
  /\ In "ls" ["ls"]
  /\ ptyOpenOk allOk = true
  /\ spawned (trace Wire.decodeCommand allOk lsLine ["ls"]) = true
  /\ option_map size (running Wire.decodeCommand allOk lsLine ["ls"])
     = Some (winsize 80 24).
Proof.
  assert (Hread : ReadString LF lsLine = Some (lsLine, "")) by reflexivity.
  assert (Hdec : Wire.decodeCommand lsLine
                 = Some {| Command_ := ["ls"; "-la"]; Width := 80; Height := 24 |})
    by reflexivity.
  assert (Hin : In "ls" ["ls"]) by (left; reflexivity).
  do 4 (split; [assumption || reflexivity|]).
  destruct (C4_accepted_descriptor_starts_exact_argv
              Wire.decodeCommand allOk lsLine lsLine "" ["ls"] _ "ls" ["-la"]
              Hread Hdec eq_refl (or_intror Hin) eq_refl)
    as (setup & post & _ & _ & _ & _ & Hs & _ & _ & Hg & _ & Hrun).
  split; [exact Hs|].
  rewrite Hrun. cbn [option_map size]. f_equal. exact (Hg eq_refl).
Defined.

(** C4 as stated does not hold: with the descriptor
    [{Command:[cat], Width:80, Height:24}] and no allow-list, no process
    is spawned when [pty.Open] fails or when [cmd.Start] fails, and when
    the initial [pty.Setsize] fails the process is spawned on a PTY whose
    geometry is not 80x24. *)
Lemma C4_counterexample :
  Wire.decodeCommand catLine
  = Some {| Command_ := ["cat"]; Width := 80; Height := 24 |}
  /\ spawned (trace Wire.decodeCommand
                    (mkEnv 0 false true true) catLine []) = false
  /\ spawned (trace Wire.decodeCommand
                    (mkEnv 0 true true false) catLine []) = false
  /\ spawned (trace Wire.decodeCommand
                    (mkEnv 0 true false true) catLine []) = true
  /\ ptyAfter (trace Wire.decodeCommand (mkEnv 0 true false true) catLine [])
              freshPty <> winsize 80 24.
Proof.
  repeat split; try reflexivity.
  vm_compute. discriminate.
Qed.

(** ** The resize loop (C5, C9, C10) *)

Lemma digit_plain (c : ascii) (d : Z) : digit c = Some d -> plain c = true.
Proof.
  destruct c as [[] [] [] [] [] [] [] []]; cbv; intros H;
    try discriminate H; reflexivity.
Qed.

Lemma digits_plain (s : string) :
  forall acc n, digits acc s = Some n ->
                Forall (fun c => plain c = true) (list_ascii_of_string s).
Proof.
  induction s as [|c r IH]; intros acc n H; cbn in *.
  - constructor.
  - destruct (digit c) as [d|] eqn:E; [|discriminate H].
    constructor; [exact (digit_plain _ _ E) | exact (IH _ _ H)].
Qed.

Lemma unsigned_plain (s : string) (n : Z) :
  unsigned s = Some n ->
  s <> "" /\ Forall (fun c => plain c = true) (list_ascii_of_string s).
Proof.
  destruct s as [|c r]; [discriminate|]. unfold unsigned. intros H.
  split; [discriminate | exact (digits_plain _ _ _ H)].
Qed.

Lemma Atoi_plain (s : string) (n : Z) :
  Atoi s = Some n ->
  s <> "" /\ Forall (fun c => plain c = true) (list_ascii_of_string s).
Proof.
  unfold Atoi. destruct s as [|c r]; [discriminate|].
  intros H. split; [discriminate|].
  destruct (Ascii.eqb_spec c "-") as [->|Hm].
  - destruct (unsigned r) as [m|] eqn:E; [|discriminate H].
    constructor; [reflexivity | exact (proj2 (unsigned_plain _ _ E))].
  - destruct (Ascii.eqb_spec c "+") as [->|Hp].
    + destruct (unsigned r) as [m|] eqn:E; [|discriminate H].
      constructor; [reflexivity | exact (proj2 (unsigned_plain _ _ E))].
    + destruct (unsigned (String c r)) as [m|] eqn:E; [|discriminate H].
      exact (proj2 (unsigned_plain _ _ E)).
Qed.

Lemma list_ascii_of_string_app (s r : string) :
  list_ascii_of_string (s ++ r)
  = (list_ascii_of_string s ++ list_ascii_of_string r)%list.
Proof. induction s as [|c s IH]; cbn; [reflexivity | now rewrite IH]. Qed.

Lemma dropSpaceRune_plain (c : ascii) (t : list ascii) :
  plain c = true -> dropSpaceRune (c :: t) = None.
Proof.
  unfold plain, dropSpaceRune. intros H.
  apply andb_prop in H as [H _]. apply andb_prop in H as [H1 H2].
  rewrite H1. apply negb_true_iff in H2. now rewrite H2.
Qed.

Lemma dropSpaceRuneRev_plain (c : ascii) (t : list ascii) :
  plain c = true -> dropSpaceRuneRev (c :: t) = None.
Proof.
  unfold plain, dropSpaceRuneRev. intros H.
  apply andb_prop in H as [H _]. apply andb_prop in H as [H1 H2].
  rewrite H1. apply negb_true_iff in H2. now rewrite H2.
Qed.

Lemma trimLeft_plain (c : ascii) (t : list ascii) :
  plain c = true -> trimLeft (c :: t) = c :: t.
Proof.
  intros H. unfold trimLeft. cbn [List.length dropWhile].
  now rewrite (dropSpaceRune_plain c t H).
Qed.

Lemma trimRight_line (m : list ascii) (x : ascii) :
  plain x = true -> trimRight ((m ++ [x]) ++ [LF]) = (m ++ [x])%list.
Proof.
  intros H. unfold trimRight.
  rewrite !rev_app_distr, !length_app, Nat.add_comm.
  cbn [rev app List.length Nat.add dropWhile].
  replace (dropSpaceRuneRev (LF :: x :: rev m)) with (Some (x :: rev m))
    by reflexivity.
  rewrite Nat.add_comm. cbn [Nat.add dropWhile].
  rewrite (dropSpaceRuneRev_plain x _ H).
  cbn [rev]. now rewrite rev_involutive.
Qed.

(** A line that starts and ends with such bytes loses exactly its line
    feed to [TrimSpace]. *)
Lemma TrimSpace_line (c x : ascii) (t m : string) :
  plain c = true -> plain x = true ->
  String c t = m ++ String x "" ->
  TrimSpace (String c t ++ nl) = String c t.
Proof.
  intros Hc Hx E. unfold TrimSpace.
  rewrite list_ascii_of_string_app.
  change (list_ascii_of_string nl) with [LF].
  cbn [list_ascii_of_string app].
  rewrite (trimLeft_plain c _ Hc).
  change (c :: (list_ascii_of_string t ++ [LF])%list)
    with (list_ascii_of_string (String c t) ++ [LF])%list.
  rewrite E, list_ascii_of_string_app.
  cbn [list_ascii_of_string].
  rewrite (trimRight_line _ x Hx).
  change [x] with (list_ascii_of_string (String x "")).
  now rewrite <- list_ascii_of_string_app, string_of_list_ascii_of_string.
Qed.

(** [Split] on a separator that the first piece does not contain. *)
Lemma Split_piece (s r : string) :
  Forall (fun c => Ascii.eqb c ":" = false) (list_ascii_of_string s) ->
  Split (s ++ String ":" r) ":" = s :: Split r ":".
Proof.
  induction s as [|c s IH]; cbn; intros H.
  - reflexivity.
  - inversion H as [|? ? Hc Hs]; subst. rewrite Hc, (IH Hs). reflexivity.
Qed.

Lemma Split_last (s : string) :
  Forall (fun c => Ascii.eqb c ":" = false) (list_ascii_of_string s) ->
  Split s ":" = [s].
Proof.
  induction s as [|c s IH]; cbn; intros H.
  - reflexivity.
  - inversion H as [|? ? Hc Hs]; subst. rewrite Hc, (IH Hs). reflexivity.
Qed.

Lemma plain_no_colon (l : list ascii) :
  Forall (fun c => plain c = true) l ->
  Forall (fun c => Ascii.eqb c ":" = false) l.
Proof.
  apply Forall_impl. intros c H. unfold plain in H.
  apply andb_prop in H as [_ H]. now apply negb_true_iff in H.
Qed.

Lemma string_last (s : string) :
  s <> "" -> exists m x, s = m ++ String x "".
Proof.
  induction s as [|c s IH]; [congruence|]. intros _.
  destruct s as [|d s'].
  - exists "", c. reflexivity.
  - destruct IH as (m & x & E); [discriminate|].
    exists (String c m), x. cbn. now rewrite <- E.
Qed.

Lemma append_assoc (a b c : string) : (a ++ b) ++ c = a ++ (b ++ c).
Proof. induction a as [|x a IH]; cbn; [reflexivity | now rewrite IH]. Qed.

(** The fields of a well-formed resize line, as the loop body sees them. *)
Lemma resize_line_parts (a b : string) (width height : Z) :
  Atoi a = Some width -> Atoi b = Some height ->
  Split (TrimSpace ("resize:" ++ a ++ ":" ++ b ++ nl)) ":" = ["resize"; a; b].
Proof.
  intros Ha Hb.
  destruct (Atoi_plain _ _ Ha) as [_ Pa].
  destruct (Atoi_plain _ _ Hb) as [Nb Pb].
  destruct (string_last b Nb) as (m & x & Eb).
  assert (Px : plain x = true).
  { rewrite Eb, list_ascii_of_string_app in Pb.
    apply Forall_app in Pb as [_ Pb]. now inversion Pb. }
  assert (E : "resize:" ++ a ++ ":" ++ b ++ nl
              = String "r" ("esize:" ++ a ++ ":" ++ b) ++ nl).
  { cbn. now rewrite !append_assoc. }
  rewrite E.
  rewrite (TrimSpace_line "r" x _ ("resize:" ++ a ++ ":" ++ m) eq_refl Px).
  - change (String "r" ("esize:" ++ a ++ ":" ++ b))
      with ("resize" ++ String ":" (a ++ String ":" b)).
    rewrite Split_piece by (repeat constructor).
    rewrite Split_piece by (now apply plain_no_colon).
    rewrite Split_last by (now apply plain_no_colon).
    reflexivity.
  - rewrite Eb. cbn. now rewrite !append_assoc.
Qed.

(** C9. A resize line [resize:<a>:<b>] whose two fields [strconv.Atoi]
    accepts is never rejected for its range: the loop body asks the PTY
    for the two values reduced modulo [2^16] (columns from [a], rows from
    [b]), which become the geometry when the call succeeds, and the loop
    goes on.  Negative and large values wrap. *)
Theorem C9_resize_dimensions_wrap_mod_2_16 :
  forall (a b : string) (width height : Z) (ok : bool) (pty : Winsize),
    Atoi a = Some width ->
    Atoi b = Some height ->
    resizeIter (Some ("resize:" ++ a ++ ":" ++ b ++ nl)) ok pty
    = (Continue,
       [Log "Resize request received";
        PtySetsize {| Rows := height mod 2 ^ 16; Cols := width mod 2 ^ 16;
                      X := 0; Y := 0 |} ok;
        Log (if ok then "Terminal resized to %dx%d"
             else "Error resizing PTY: %v")],
       if ok
       then {| Rows := height mod 2 ^ 16; Cols := width mod 2 ^ 16;
               X := 0; Y := 0 |}
       else pty).
Proof.
  intros a b width height ok pty Ha Hb.
  unfold resizeIter.
  replace (HasPrefix ("resize:" ++ a ++ ":" ++ b ++ nl) "resize:")
    with true by reflexivity.
  cbv zeta. rewrite (resize_line_parts a b width height Ha Hb).
  cbn [List.length Nat.eqb nth]. rewrite Ha, Hb.
  reflexivity.
Qed.

(** Width -1 is applied as 65535 columns, height 65537 as 1 row. *)
Lemma C9_resize_dimensions_wrap_mod_2_16_witness :
  Atoi "-1" = Some (-1)
  /\ Atoi "65537" = Some 65537
  /\ snd (resizeIter (Some ("resize:-1:65537" ++ nl)) true (winsize 80 24))
     = {| Rows := 1; Cols := 65535; X := 0; Y := 0 |}.
Proof.
  split; [reflexivity|]. split; [reflexivity|].
  exact (f_equal snd
           (C9_resize_dimensions_wrap_mod_2_16
              "-1" "65537" (-1) 65537 true (winsize 80 24) eq_refl eq_refl)).
Defined.

(** C10. A complete line that the resize goroutine takes from its
    reader and that does not begin with [resize:] is dropped without a
    trace: the iteration logs nothing, calls nothing and goes on, the
    geometry is unchanged, the line leaves the reader's buffer and the
    child's input is what it was. *)
Theorem C10_non_resize_line_silently_discarded :
  forall (s : Session) (message rest : string) (ok : bool),
    ReadString LF (rbuf s) = Some (message, rest) ->
    HasPrefix message "resize:" = false ->
    resizeIter (Some message) ok (size s) = (Continue, [], size s)
    /\ step (CtlLine ok) s
       = Some {| wire := wire s;
                 rbuf := rest;
                 ptyIn := ptyIn s;
                 size := size s;
                 ctlTrace := ctlTrace s |}.
Proof.
  intros s message rest ok Hread Hpre.
  assert (Hiter : resizeIter (Some message) ok (size s)
                  = (Continue, [], size s)).
  { unfold resizeIter. now rewrite Hpre. }
  split; [exact Hiter|].
  unfold step. rewrite Hread, Hiter. cbn [fst snd].
  now rewrite app_nil_r.
Qed.

Lemma C10_non_resize_line_silently_discarded_witness :
  ReadString LF (rbuf typedLs) = Some ("ls -la" ++ nl, "pwd")
  /\ HasPrefix ("ls -la" ++ nl) "resize:" = false
  /\ step (CtlLine true) typedLs
     = Some {| wire := ""; rbuf := "pwd"; ptyIn := "";
               size := winsize 80 24; ctlTrace := [] |}.
Proof.
  split; [reflexivity|]. split; [reflexivity|].
  exact (proj2 (C10_non_resize_line_silently_discarded
                  typedLs ("ls -la" ++ nl) "pwd" true eq_refl eq_refl)).
Defined.

(** C5. A resize that fails never ends the session.  In the loop: a
    line that begins with [resize:] but has not exactly three fields, or
    whose second or third field [strconv.Atoi] refuses, or for which
    [pty.Setsize] fails, is logged; the iteration closes nothing and
    kills nothing; the geometry stays what it was; and the loop goes on
    with the next read.  At the start of the session: when the initial
    [pty.Setsize] fails the failure is logged, the PTY keeps the
    geometry it had, and the handler goes on to launch its goroutines
    and to start the command as it does after a success. *)
Theorem C5_resize_failures_recovered_locally :
  (forall (message : string) (ok : bool) (pty : Winsize)
          (rest : list (option string * bool)),
      HasPrefix message "resize:" = true ->
      let parts := Split (TrimSpace message) ":" in
      List.length parts <> 3%nat
      \/ Atoi (nth 1 parts "") = None
      \/ Atoi (nth 2 parts "") = None
      \/ ok = false ->
      exists evs,
        resizeIter (Some message) ok pty = (Continue, evs, pty)
        /\ (In (Log "Invalid resize message format") evs
            \/ In (Log "Error converting dimensions to integers: width error %v, height error %v") evs
            \/ In (Log "Error resizing PTY: %v") evs)
        /\ (forall e, In e evs ->
                      (exists m, e = Log m)
                      \/ (exists ws, e = PtySetsize ws false))
        /\ resizeLoop ((Some message, ok) :: rest) pty
           = ((evs ++ fst (resizeLoop rest pty))%list,
              snd (resizeLoop rest pty)))
  /\
  (forall (json_Unmarshal : string -> option Command) (env : Env)
          (input rawCommand rest : string) (allowedCmds : list string)
          (c : Command) (argv0 : string) (args : list string),
      ReadString LF input = Some (rawCommand, rest) ->
      json_Unmarshal rawCommand = Some c ->
      Command_ c = argv0 :: args ->
      allowedCmds = [] \/ In argv0 allowedCmds ->
      ptyOpenOk env = true ->
      setsizeOk env = false ->
      let t := trace json_Unmarshal env input allowedCmds in
      In (Log "Error setting initial terminal size: %v") t
      /\ ptyAfter t freshPty = freshPty
      /\ launched CopyPtyToConn t = true
      /\ launched CopyConnToPty t = true
      /\ launched ResizeLoop t = true
      /\ In (Start (mkChild argv0 args) (startOk env)) t
      /\ spawned t = startOk env).
Proof.
  split.
  - intros message ok pty rest Hpre parts Hfail.
    unfold resizeLoop at 1. fold resizeLoop.
    unfold resizeIter. rewrite Hpre. cbv zeta. fold parts.
    destruct (Nat.eqb_spec (List.length parts) 3) as [Hlen|Hlen].
    + destruct (Atoi (nth 1 parts "")) as [width|] eqn:Ew;
        [destruct (Atoi (nth 2 parts "")) as [height|] eqn:Eh|].
      * destruct Hfail as [H|[H|[H|H]]]; try congruence. subst ok.
        eexists. split; [reflexivity|].
        split; [right; right; cbn; tauto|].
        split; [|reflexivity].
        intros e [<-|[<-|[<-|[]]]]; eauto.
      * eexists. split; [reflexivity|].
        split; [right; left; cbn; tauto|].
        split; [|reflexivity].
        intros e [<-|[<-|[]]]; eauto.
      * eexists. split; [reflexivity|].
        split; [right; left; cbn; tauto|].
        split; [|reflexivity].
        intros e [<-|[<-|[]]]; eauto.
    + eexists. split; [reflexivity|].
      split; [left; cbn; tauto|].
      split; [|reflexivity].
      intros e [<-|[<-|[]]]; eauto.
  - intros ju env input raw rest allowed c argv0 args
           Hread Hsome Hargv Hallow Hopen Hsize t.
    subst t. rewrite (accepted_trace ju env input raw rest allowed c argv0 args
                        Hread Hsome Hargv Hallow Hopen).
    rewrite Hsize.
    split; [cbn; tauto|].
    split; [destruct (startOk env); reflexivity|].
    split; [reflexivity|]. split; [reflexivity|]. split; [reflexivity|].
    split; [cbn; tauto|].
    destruct (startOk env); reflexivity.
Qed.

Lemma C5_resize_failures_recovered_locally_witness :
  (HasPrefix shortResize "resize:" = true
   /\ List.length (Split (TrimSpace shortResize) ":") <> 3%nat
   /\ exists evs,
       resizeIter (Some shortResize) true (winsize 80 24)
       = (Continue, evs, winsize 80 24)
       /\ resizeLoop [(Some shortResize, true);
                      (Some resize120x40, true)] (winsize 80 24)
          = ((evs ++ fst (resizeLoop [(Some resize120x40, true)]
                                     (winsize 80 24)))%list,
             snd (resizeLoop [(Some resize120x40, true)]
                             (winsize 80 24))))
  /\
  (ReadString LF catLine = Some (catLine, "")
   /\ Wire.decodeCommand catLine
      = Some {| Command_ := ["cat"]; Width := 80; Height := 24 |}
   /\ setsizeOk resizeFails = false
   /\ spawned (trace Wire.decodeCommand resizeFails catLine []) = true
   /\ ptyAfter (trace Wire.decodeCommand resizeFails catLine []) freshPty
      = freshPty).
Proof.
  split.
  - assert (Hpre : HasPrefix shortResize "resize:" = true) by reflexivity.
    assert (Hlen : List.length (Split (TrimSpace shortResize) ":") <> 3%nat)
      by (vm_compute; discriminate).
    split; [exact Hpre|]. split; [exact Hlen|].
    destruct (proj1 C5_resize_failures_recovered_locally
                shortResize true (winsize 80 24)
                [(Some resize120x40, true)]
                Hpre (or_introl Hlen))
      as (evs & Hiter & _ & _ & Hloop).
    exists evs. split; [exact Hiter | exact Hloop].
  - assert (Hread : ReadString LF catLine = Some (catLine, "")) by reflexivity.
    assert (Hdec : Wire.decodeCommand catLine
                   = Some {| Command_ := ["cat"]; Width := 80; Height := 24 |})
      by reflexivity.
    split; [exact Hread|]. split; [exact Hdec|]. split; [reflexivity|].
    destruct (proj2 C5_resize_failures_recovered_locally
                Wire.decodeCommand resizeFails catLine catLine "" []
                _ "cat" [] Hread Hdec eq_refl (or_introl eq_refl)
                eq_refl eq_refl)
      as (_ & Hpty & _ & _ & _ & _ & Hsp).
    split; [exact Hsp | exact Hpty].
Defined.

(** ** One connection, two readers (C1, C2) *)

(** Whenever bytes are waiting on the connection and the reader holds
    no complete line, either goroutine may be the one whose [conn.Read]
    gets them: the copier, which writes them to the child, or the resize
    loop's reader, which keeps them from the child. *)
Lemma either_reader_may_read (s : Session) (n : nat) :
  canRead n s = true ->
  ReadString LF (rbuf s) = None ->
  (exists s1, step (CopyRead n) s = Some s1
              /\ ptyIn s1 = ptyIn s ++ take n (wire s)
              /\ rbuf s1 = rbuf s)
  /\ (exists s2, step (BufFill n) s = Some s2
                 /\ ptyIn s2 = ptyIn s
                 /\ rbuf s2 = rbuf s ++ take n (wire s)).
Proof.
  intros Hn Hb. unfold step. rewrite Hn, Hb.
  split; eexists; (split; [reflexivity|]); split; reflexivity.
Qed.

(** C1 (the code does not meet it).  [handleConnection] launches both
    [io.Copy(ptyMaster, conn)] and the resize loop on the same
    connection, and nothing decides which of them a byte goes to.  On
    the stream [resizeThenHello]: when the resize loop happens to read
    the resize line and the copier the rest, the geometry becomes 120x40
    and the child receives [hello]; when the copier happens to read the
    resize line and the resize loop the rest, the line [resize:120:40]
    is written to the child's input, the geometry stays 80x24 and
    [hello] is dropped without a trace. *)
Theorem C1_two_readers_share_the_connection :
  let t := trace Wire.decodeCommand allOk resizeThenHello [] in
  launched CopyConnToPty t = true
  /\ launched ResizeLoop t = true
  /\ runFrom Wire.decodeCommand allOk resizeThenHello []
             [BufFill 14; CtlLine true; CopyRead 6]
     = Some {| wire := ""; rbuf := ""; ptyIn := "hello" ++ nl;
               size := winsize 120 40;
               ctlTrace := [Log "Resize request received";
                            PtySetsize (winsize 120 40) true;
                            Log "Terminal resized to %dx%d"] |}
  /\ runFrom Wire.decodeCommand allOk resizeThenHello []
             [CopyRead 14; BufFill 6; CtlLine true]
     = Some {| wire := ""; rbuf := ""; ptyIn := resize120x40;
               size := winsize 80 24;
               ctlTrace := [] |}.
Proof. repeat split; vm_compute; reflexivity. Qed.

(** C2 (the code does not meet it).  On the stream [typedThenResize],
    received in one segment: the session starts with [ab] and the resize
    line in the reader's buffer; neither reader can read anything from
    the connection; the resize loop takes the line [abresize:120:40],
    which does not begin with [resize:], and drops it.  The geometry
    stays 80x24, [ab] never reaches the child, and nothing is left to
    do.  When instead the 16 bytes are still on the connection and the
    copier reads them, all of them, resize line included, are written to
    the child's input. *)
Theorem C2_resize_line_lost_or_leaked :
  let s0 := {| wire := ""; rbuf := "ab" ++ resize120x40; ptyIn := "";
               size := winsize 80 24; ctlTrace := [] |} in
  let s1 := {| wire := ""; rbuf := ""; ptyIn := "";
               size := winsize 80 24; ctlTrace := [] |} in
  running Wire.decodeCommand oneSegment typedThenResize [] = Some s0
  /\ (forall n, step (CopyRead n) s0 = None)
  /\ (forall n, step (BufFill n) s0 = None)
  /\ (forall ok, step (CtlLine ok) s0 = Some s1)
  /\ (forall a, step a s1 = None)
  /\ runFrom Wire.decodeCommand allOk typedThenResize [] [CopyRead 16]
     = Some {| wire := ""; rbuf := ""; ptyIn := "ab" ++ resize120x40;
               size := winsize 80 24; ctlTrace := [] |}.
Proof.
  cbv zeta.
  split; [vm_compute; reflexivity|].
  split; [intros [|n]; reflexivity|].
  split; [intros n; reflexivity|].
  split; [intros ok; reflexivity|].
  split; [|vm_compute; reflexivity].
  intros [[|n]|[|n]|ok]; reflexivity.
Qed.

(** ** The client's terminal mode (C6) *)

Lemma sendTerminalSize_value (size : option (Z * Z)) (sent : bool) :
  snd (sendTerminalSize size sent) = Value tt
  /\ forallb keepsMode (fst (sendTerminalSize size sent)) = true.
Proof.
  unfold sendTerminalSize.
  destruct size as [[w h]|]; [destruct sent|]; cbn; auto.
Qed.

(** While it waits, the client neither enters nor leaves raw mode. *)
Lemma duplexing_keepsMode (hs : list happening) :
  forall closed, forallb keepsMode (fst (duplexing hs closed)) = true.
Proof.
  induction hs as [|h hs IH]; intros closed; [reflexivity|].
  destruct h as [g err|sig size sent|].
  - cbn [duplexing]. unfold bind.
    destruct err; cbn [emit ret fst snd]; destruct closed; cbn;
      try reflexivity; apply IH.
  - cbn [duplexing]. destruct (clientNotified sig); [|reflexivity].
    unfold bind.
    destruct (sendTerminalSize_value size sent) as [Hv Hk].
    rewrite Hv. cbn [fst snd]. rewrite forallb_app, Hk. apply IH.
  - cbn [duplexing]. destruct closed; [reflexivity | apply IH].
Qed.

(** Quiet happenings are passed over. *)
Lemma duplexing_quiet (before rest : list happening) :
  forallb quiet before = true ->
  exists tr, fst (duplexing (before ++ rest) false)
             = (tr ++ fst (duplexing rest false))%list
             /\ snd (duplexing (before ++ rest) false)
                = snd (duplexing rest false).
Proof.
  induction before as [|h before IH]; intros Hq.
  - exists []. split; reflexivity.
  - cbn in Hq. apply andb_prop in Hq as [Hh Hq].
    destruct (IH Hq) as (tr & Hf & Hs).
    destruct h as [g err|sig size sent|]; [discriminate Hh| |].
    + cbn in Hh. cbn [app duplexing]. rewrite Hh. unfold bind.
      destruct (sendTerminalSize_value size sent) as [Hv _].
      rewrite Hv. cbn [fst snd]. rewrite Hf, Hs.
      exists (fst (sendTerminalSize size sent) ++ tr)%list.
      split; [now rewrite app_assoc | reflexivity].
    + cbn [app duplexing]. exists tr. split; assumption.
Qed.

(** Once [doneCh] is closed the main goroutine goes on as soon as it
    runs, whatever window changes come first. *)
Lemma duplexing_closed (mid after : list happening) :
  forallb quiet mid = true ->
  snd (duplexing (mid ++ MainRuns :: after) true) = Value tt.
Proof.
  induction mid as [|h mid IH]; intros Hq; [reflexivity|].
  cbn in Hq. apply andb_prop in Hq as [Hh Hq].
  destruct h as [g err|sig size sent|]; [discriminate Hh| |reflexivity].
  cbn in Hh. cbn [app duplexing]. rewrite Hh. unfold bind.
  destruct (sendTerminalSize_value size sent) as [Hv _].
  rewrite Hv. cbn [fst snd]. apply IH, Hq.
Qed.

Lemma duplexing_copy_done (before mid after : list happening)
      (g : goroutine) (err : bool) :
  forallb quiet before = true ->
  forallb quiet mid = true ->
  snd (duplexing (before ++ CopyDone g err :: mid ++ MainRuns :: after) false)
  = Value tt.
Proof.
  intros Hb Hm.
  destruct (duplexing_quiet before
              (CopyDone g err :: mid ++ MainRuns :: after) Hb)
    as (tr & _ & ->).
  cbn [duplexing]. unfold bind.
  destruct err; cbn [emit ret fst snd]; apply duplexing_closed, Hm.
Qed.

Lemma duplexing_killed (before after : list happening)
      (sig : Signal) (size : option (Z * Z)) (sent : bool) :
  forallb quiet before = true ->
  clientNotified sig = false ->
  snd (duplexing (before ++ Signalled sig size sent :: after) false)
  = Halted (Killed sig).
Proof.
  intros Hb Hs.
  destruct (duplexing_quiet before (Signalled sig size sent :: after) Hb)
    as (tr & _ & ->).
  cbn [duplexing]. now rewrite Hs.
Qed.

Lemma keepsMode_not_In (l : list event) (e : event) :
  forallb keepsMode l = true -> keepsMode e = false -> ~ In e l.
Proof.
  intros Hl He Hin. rewrite forallb_forall in Hl.
  specialize (Hl e Hin). congruence.
Qed.

(** The client's trace once raw mode is entered: the set-up, the
    effects of the wait, and the two deferred calls unless the process
    stopped. *)
Lemma startClient_raw :
  forall (json_Marshal : Command -> option string) (env : ClientEnv)
         (command : list string) (hs : list happening),
    In (MakeRaw true) (fst (startClient json_Marshal env command hs)) ->
    exists setup,
      forallb keepsMode setup = true
      /\ startClient json_Marshal env command hs
         = match snd (duplexing hs false) with
           | Halted h =>
             ((setup ++ MakeRaw true :: Go CopyStdinToConn
                     :: Go CopyConnToStdout :: fst (duplexing hs false))%list,
              Halted h)
           | st =>
             ((setup ++ MakeRaw true :: Go CopyStdinToConn
                     :: Go CopyConnToStdout :: fst (duplexing hs false)
                     ++ [Restore; Close Conn])%list,
              st)
           end.
Proof.
  intros jm env command hs.
  unfold startClient.
  destruct (dialOk env); [|cbn; intros H; absent H].
  destruct (termSize env) as [size|]; [|cbn; intros H; absent H].
  cbn [bind emit ret fst snd app defer].
  destruct (jm _) as [cmdBytes|] eqn:Ej; [|cbn; intros H; absent H].
  destruct (writeOk env); [|cbn; intros H; absent H].
  destruct (makeRawOk env); [|cbn; intros H; absent H].
  intros _.
  exists [Dial true; GetSize (Some size); Write Conn (cmdBytes ++ nl) true;
          Notify [SIGWINCH]; Go WinchLoop].
  split; [reflexivity|].
  unfold bind, defer. cbn [emit ret fst snd app].
  destruct (duplexing hs false) as [tr [[]| |h]]; cbn [fst snd app];
    rewrite <- ?app_assoc; reflexivity.
Qed.

(** C6 (as amended). Once the client has entered raw mode, every path
    on which [startClient] returns ends with the terminal restored and
    then the connection closed, and the terminal is restored only there;
    the client returns as soon as the main goroutine runs after either
    copy direction has ended, with or without an error, whatever window
    changes come in between.  A signal other than SIGWINCH is not
    handled by the client: it terminates the process where it waits, and
    then, as on every path on which the process stops without returning,
    the terminal is not restored. *)
Theorem C6_terminal_restored_when_client_returns :
  forall (json_Marshal : Command -> option string) (env : ClientEnv)
         (command : list string) (hs : list happening),
    let r := startClient json_Marshal env command hs in
    In (MakeRaw true) (fst r) ->
    match snd r with
    | Halted _ => ~ In Restore (fst r)
    | _ => exists pre, fst r = (pre ++ [Restore; Close Conn])%list
                       /\ ~ In Restore pre
    end
    /\ (forall before g err mid after,
           hs = (before ++ CopyDone g err :: mid ++ MainRuns :: after)%list ->
           forallb quiet before = true ->
           forallb quiet mid = true ->
           snd r = Value tt)
    /\ (forall before sig size sent after,
           hs = (before ++ Signalled sig size sent :: after)%list ->
           forallb quiet before = true ->
           clientNotified sig = false ->
           snd r = Halted (Killed sig)).
Proof.
  intros jm env command hs r Hraw. subst r.
  destruct (startClient_raw jm env command hs Hraw) as (setup & Hk & E).
  pose proof (duplexing_keepsMode hs false) as Hd.
  assert (Hpre : ~ In Restore
                   (setup ++ MakeRaw true :: Go CopyStdinToConn
                          :: Go CopyConnToStdout :: fst (duplexing hs false))).
  { intros H. apply in_app_or in H as [H|[H|[H|[H|H]]]];
      try discriminate H;
      revert H; apply keepsMode_not_In; auto. }
  assert (Hs : snd (startClient jm env command hs) = snd (duplexing hs false)).
  { rewrite E. now destruct (snd (duplexing hs false)). }
  split; [|split].
  - rewrite E. destruct (snd (duplexing hs false)) as [[]| |h]; cbn [fst snd].
    + eexists. split; [|exact Hpre].
      rewrite <- app_assoc. reflexivity.
    + eexists. split; [|exact Hpre].
      rewrite <- app_assoc. reflexivity.
    + exact Hpre.
  - intros before g err mid after -> Hb Hm. rewrite Hs.
    now apply duplexing_copy_done.
  - intros before sig size sent after -> Hb Hn. rewrite Hs.
    now apply duplexing_killed.
Qed.

Lemma C6_terminal_restored_when_client_returns_witness :
  In (MakeRaw true)
     (fst (startClient Wire.encodeCommand clientOk ["cat"] resizedThenClosed))
  /\ snd (startClient Wire.encodeCommand clientOk ["cat"] resizedThenClosed)
     = Value tt
  /\ exists pre,
      fst (startClient Wire.encodeCommand clientOk ["cat"] resizedThenClosed)
      = (pre ++ [Restore; Close Conn])%list.
Proof.
  assert (Hraw : In (MakeRaw true)
                    (fst (startClient Wire.encodeCommand clientOk ["cat"]
                                      resizedThenClosed)))
    by (cbn; tauto).
  split; [exact Hraw|].
  destruct (C6_terminal_restored_when_client_returns
              Wire.encodeCommand clientOk ["cat"] resizedThenClosed Hraw)
    as (Hret & Hdone & _).
  assert (Hv : snd (startClient Wire.encodeCommand clientOk ["cat"] resizedThenClosed)
               = Value tt).
  { apply (Hdone [Signalled SIGWINCH (Some (120, 40)) true]
                 CopyConnToStdout false [] []); reflexivity. }
  split; [exact Hv|].
  rewrite Hv in Hret. destruct Hret as (pre & Hpre & _).
  exists pre. exact Hpre.
Defined.

(** C6 as stated does not hold: the client has entered raw mode, the
    process receives SIGTERM, and it ends without restoring the
    terminal. *)
Lemma C6_counterexample :
  In (MakeRaw true) (fst (startClient Wire.encodeCommand clientOk ["cat"] terminated))
  /\ snd (startClient Wire.encodeCommand clientOk ["cat"] terminated)
     = Halted (Killed SIGTERM)
  /\ ~ In Restore (fst (startClient Wire.encodeCommand clientOk ["cat"] terminated)).
Proof.
  split; [cbn; tauto|]. split; [reflexivity|].
  intros H. absent H.
Qed.

(** ** The command the client asks for (C8) *)

(** C8 (as amended). In client mode (no help flag, no [--start]): with
    positional arguments the requested command is exactly those
    arguments, in order; with none, and when the base name of
    [os.Args[0]] is [hrun], it is [sh -c $SHELL]; with none under any
    other program name it is the empty command.  [startClient] sends the
    command it is given, unchanged, in the descriptor, with the terminal
    size reduced to [uint16]. *)
Theorem C8_client_requested_command :
  forall (arg0 shell : string) (f : Flags),
    helpFlag f = false ->
    helpFlagLong f = false ->
    startFlag f = false ->
    (flagArgs f <> [] -> requested arg0 shell f = Some (flagArgs f))
    /\ (flagArgs f = [] -> Base arg0 = "hrun" ->
        requested arg0 shell f = Some ["sh"; "-c"; shell])
    /\ (flagArgs f = [] -> Base arg0 <> "hrun" ->
        requested arg0 shell f = Some [])
    /\ (forall (json_Marshal : Command -> option string) (env : ClientEnv)
               (command : list string) (hs : list happening)
               (w h : Z) (cmdBytes : string),
           requested arg0 shell f = Some command ->
           dialOk env = true ->
           termSize env = Some (w, h) ->
           json_Marshal {| Command_ := command;
                           Width := w mod 2 ^ 16;
                           Height := h mod 2 ^ 16 |} = Some cmdBytes ->
           In (Write Conn (cmdBytes ++ nl) (writeOk env))
              (fst (startClient json_Marshal env command hs))).
Proof.
  intros arg0 shell f Hh Hl Hs.
  unfold requested, main. rewrite Hh, Hl, Hs. cbn [orb].
  repeat split.
  - intros Hne. destruct (flagArgs f) as [|a r]; [congruence|].
    cbn. now rewrite andb_false_r.
  - intros -> ->. reflexivity.
  - intros -> Hb. apply String.eqb_neq in Hb. now rewrite Hb.
  - intros jm env command hs w h cmdBytes _ Hd Ht Hj.
    unfold startClient. rewrite Hd, Ht.
    cbn [bind emit ret fst snd app defer].
    unfold uint16. rewrite Hj.
    destruct (writeOk env); cbn; [|tauto].
    unfold defer, bind. cbn.
    destruct (makeRawOk env); cbn; [|tauto].
    destruct (snd (duplexing hs false)); cbn; tauto.
Qed.

(** The binary installed as [/usr/bin/hrun], run without arguments by a
    user whose shell is [/bin/bash], and run as [hrun ls -la]. *)
Lemma C8_client_requested_command_witness :
  Base "/usr/bin/hrun" = "hrun"
  /\ requested "/usr/bin/hrun" "/bin/bash" (hrunFlags [])
     = Some ["sh"; "-c"; "/bin/bash"]
  /\ requested "/usr/bin/hrun" "/bin/bash" (hrunFlags ["ls"; "-la"])
     = Some ["ls"; "-la"].
Proof.
  split; [reflexivity|]. split.
  - exact (proj1 (proj2 (C8_client_requested_command
                           "/usr/bin/hrun" "/bin/bash" (hrunFlags [])
                           eq_refl eq_refl eq_refl))
                 eq_refl eq_refl).
  - apply (proj1 (C8_client_requested_command
                    "/usr/bin/hrun" "/bin/bash" (hrunFlags ["ls"; "-la"])
                    eq_refl eq_refl eq_refl)).
    discriminate.
Defined.

(** C8 as stated does not hold: the same binary installed under the
    name [hostrun] and run in client mode without arguments asks for
    the empty command, not for a shell; the descriptor it sends carries
    no argv and the server turns it down without starting anything. *)
Lemma C8_counterexample :
  main "/usr/bin/hostrun" "/bin/bash" (hrunFlags [])
  = StartClient [] "/tmp/hrun.sock"
  /\ requested "/usr/bin/hostrun" "/bin/bash" (hrunFlags [])
     <> Some ["sh"; "-c"; "/bin/bash"]
  /\ (exists line,
         Wire.encodeCommand {| Command_ := []; Width := 80; Height := 24 |}
         = Some line
         /\ In (Write Conn (line ++ nl) true)
               (fst (startClient Wire.encodeCommand clientOk [] []))
         /\ option_map Command_ (Wire.decodeCommand (line ++ nl)) = Some []
         /\ spawned (trace Wire.decodeCommand allOk (line ++ nl) []) = false).
Proof.
  split; [reflexivity|]. split; [discriminate|].
  eexists. split; [reflexivity|].
  split; [cbn; tauto|]. split; reflexivity.
Qed.

(** ** Termination of the server (C7) *)

(** Nothing runs in a process that has exited. *)
Lemma serverStep_dead (m : move) (s : Server) :
  alive s = false -> serverStep m s = None.
Proof. intros H. unfold serverStep. now rewrite H. Qed.

(** C7 (the code does not meet it).  A server with three active
    sessions receives SIGTERM.  When the three [KillOnSignal]
    goroutines run before the accept loop takes [<-doneCh], every
    session closes its connection and sends SIGKILL to its child's
    process group, and the listener returns.  When the accept loop takes
    [<-doneCh] first, [startServer] and [main] return and the process is
    gone before any [KillOnSignal] goroutine has run: no process group
    is sent SIGKILL (each child alone is sent the SIGTERM of
    [Pdeathsig]), and nothing can run afterwards. *)
Theorem C7_shutdown_races_with_session_kill :
  (exists s,
      serverRun [Deliver SIGTERM;
                 Handler 0; Handler 0; Handler 1; Handler 1;
                 Handler 2; Handler 2;
                 Watcher; MainLoop] threeSessions = Some s
      /\ returned s = true
      /\ forallb groupKilled (sessions s) = true
      /\ forallb connClosed (sessions s) = true)
  /\
  (exists s,
      serverRun [Deliver SIGTERM; Watcher; MainLoop] threeSessions = Some s
      /\ returned s = true
      /\ alive s = false
      /\ (forall m, serverStep m s = None)
      /\ existsb groupKilled (sessions s) = false
      /\ map received (sessions s)
         = [[(101, SIGTERM)]; [(102, SIGTERM)]; [(103, SIGTERM)]]).
Proof.
  split.
  - eexists. split; [reflexivity|]. repeat split.
  - eexists. split; [reflexivity|].
    split; [reflexivity|]. split; [reflexivity|].
    split; [intros m; now apply serverStep_dead|].
    split; reflexivity.
Qed.

(** * Further properties *)

(** ** A window change, from the client's line to the server's PTY *)

Lemma digits_string_of_uint (d : Decimal.uint) :
  forall acc, digits acc (NilEmpty.string_of_uint d) = Some (uvalue acc d).
Proof.
  induction d; intros acc; cbn [NilEmpty.string_of_uint digits uvalue];
    try reflexivity;
    match goal with
    | |- context [digit ?c] =>
      replace (digit c) with (Some (Z.of_N (N_of_ascii c) - 48))
        by reflexivity
    end; cbn [N_of_ascii]; apply IHd.
Qed.

Lemma uvalue_pos (d : Decimal.uint) :
  forall acc, uvalue (Zpos acc) d = Zpos (Pos.of_uint_acc d acc).
Proof.
  induction d; intros acc; cbn [uvalue Pos.of_uint_acc]; try reflexivity;
    rewrite <- IHd; f_equal; lia.
Qed.

Lemma uvalue_0 (d : Decimal.uint) : uvalue 0 d = Z.of_N (Pos.of_uint d).
Proof.
  induction d; cbn [uvalue Pos.of_uint]; try reflexivity;
    try (exact IHd);
    cbn [Z.mul Z.add]; rewrite uvalue_pos; reflexivity.
Qed.

Lemma string_of_uint_unsigned (p : positive) :
  exists c r,
    NilZero.string_of_uint (Pos.to_uint p) = String c r
    /\ Ascii.eqb c "-" = false
    /\ Ascii.eqb c "+" = false
    /\ digits 0 (String c r) = Some (Zpos p).
Proof.
  pose proof (DecimalPos.Unsigned.to_uint_nonnil p) as Hn.
  pose proof (DecimalPos.Unsigned.of_to p) as Hv.
  pose proof (digits_string_of_uint (Pos.to_uint p) 0) as Hd.
  rewrite uvalue_0, Hv in Hd. cbn [Z.of_N] in Hd.
  destruct (Pos.to_uint p) eqn:E; [congruence| ..];
    cbn [NilZero.string_of_uint NilEmpty.string_of_uint] in *;
    eexists; eexists; (split; [reflexivity|]);
    (split; [reflexivity|]); (split; [reflexivity|]); exact Hd.
Qed.

(** [strconv.Atoi] reads back what [%d] prints, for every [int]. *)
Lemma Atoi_Itoa (n : Z) : isInt n -> Atoi (Itoa n) = Some n.
Proof.
  unfold isInt. intros Hr.
  assert (Hin : (- 2 ^ (intSize - 1) <=? n) && (n <=? 2 ^ (intSize - 1) - 1)
                = true).
  { apply andb_true_intro. split; apply Z.leb_le; lia. }
  unfold Itoa, Atoi. destruct n as [|p|p]; cbn [Z.to_int NilZero.string_of_int].
  - reflexivity.
  - destruct (string_of_uint_unsigned p) as (c & r & -> & Hm & Hp & Hd).
    rewrite Hm, Hp. unfold unsigned. rewrite Hd. now rewrite Hin.
  - destruct (string_of_uint_unsigned p) as (c & r & -> & Hm & Hp & Hd).
    cbn [Ascii.eqb Bool.eqb]. unfold unsigned. rewrite Hd.
    cbn [option_map Z.opp]. now rewrite Hin.
Qed.

(** X1. A window change travels intact.  For every terminal size
    [width] x [height] that fits Go's [int], the line that the client's
    [sendTerminalSize] writes is one that the server's resize loop
    accepts: the loop asks the PTY for [width] and [height] reduced
    modulo [2^16], and for sizes below [2^16] exactly for [width]
    columns and [height] rows. *)
Theorem X1_window_change_round_trip :
  forall (width height : Z) (sent ok : bool) (pty : Winsize),
    - 2 ^ 63 <= width < 2 ^ 63 ->
    - 2 ^ 63 <= height < 2 ^ 63 ->
    exists line,
      In (Write Conn line sent)
         (fst (sendTerminalSize (Some (width, height)) sent))
      /\ resizeIter (Some line) ok pty
         = (Continue,
            [Log "Resize request received";
             PtySetsize {| Rows := height mod 2 ^ 16;
                           Cols := width mod 2 ^ 16; X := 0; Y := 0 |} ok;
             Log (if ok then "Terminal resized to %dx%d"
                  else "Error resizing PTY: %v")],
            if ok
            then {| Rows := height mod 2 ^ 16; Cols := width mod 2 ^ 16;
                    X := 0; Y := 0 |}
            else pty)
      /\ (0 <= width < 2 ^ 16 -> 0 <= height < 2 ^ 16 ->
          snd (resizeIter (Some line) true pty)
          = {| Rows := height; Cols := width; X := 0; Y := 0 |}).
Proof.
  intros width height sent ok pty Hw Hh.
  assert (Ha : Atoi (Itoa width) = Some width).
  { apply Atoi_Itoa. unfold isInt, intSize. cbn. lia. }
  assert (Hb : Atoi (Itoa height) = Some height).
  { apply Atoi_Itoa. unfold isInt, intSize. cbn. lia. }
  assert (Hiter : forall ok',
             resizeIter (Some ("resize:" ++ Itoa width ++ ":"
                                         ++ Itoa height ++ nl)) ok' pty
             = (Continue,
                [Log "Resize request received";
                 PtySetsize {| Rows := height mod 2 ^ 16;
                               Cols := width mod 2 ^ 16; X := 0; Y := 0 |} ok';
                 Log (if ok' then "Terminal resized to %dx%d"
                      else "Error resizing PTY: %v")],
                if ok'
                then {| Rows := height mod 2 ^ 16; Cols := width mod 2 ^ 16;
                        X := 0; Y := 0 |}
                else pty)).
  { intros ok'. unfold resizeIter.
    replace (HasPrefix ("resize:" ++ Itoa width ++ ":" ++ Itoa height ++ nl)
                       "resize:") with true by reflexivity.
    cbv zeta. rewrite (resize_line_parts _ _ width height Ha Hb).
    cbn [List.length Nat.eqb nth]. rewrite Ha, Hb. reflexivity. }
  exists ("resize:" ++ Itoa width ++ ":" ++ Itoa height ++ nl).
  split; [|split].
  - unfold sendTerminalSize, bind. cbn [emit fst snd app].
    destruct sent; cbn; tauto.
  - apply Hiter.
  - intros Hw16 Hh16. rewrite Hiter. cbn [snd].
    now rewrite !Z.mod_small by lia.
Qed.

Lemma X1_window_change_round_trip_witness :
  - 2 ^ 63 <= 120 < 2 ^ 63
  /\ - 2 ^ 63 <= 40 < 2 ^ 63
  /\ exists line,
      In (Write Conn line true)
         (fst (sendTerminalSize (Some (120, 40)) true))
      /\ snd (resizeIter (Some line) true (winsize 80 24)) = winsize 120 40.
Proof.
  assert (Hw : - 2 ^ 63 <= 120 < 2 ^ 63) by (split; [discriminate | reflexivity]).
  assert (Hh : - 2 ^ 63 <= 40 < 2 ^ 63) by (split; [discriminate | reflexivity]).
  split; [exact Hw|]. split; [exact Hh|].
  destruct (X1_window_change_round_trip 120 40 true true (winsize 80 24) Hw Hh)
    as (line & Hin & _ & Hsmall).
  exists line. split; [exact Hin|].
  apply Hsmall; split; (discriminate || reflexivity).
Defined.

(** ** The session handler on every stream *)

Lemma ReadString_None_iff (s : string) :
  ReadString LF s = None <-> ~ In LF (list_ascii_of_string s).
Proof.
  induction s as [|c r IH]; cbn [ReadString list_ascii_of_string In].
  - split; [tauto | reflexivity].
  - destruct (Ascii.eqb_spec c LF) as [->|Hne].
    + split; [discriminate | intros H; exfalso; apply H; now left].
    + destruct (ReadString LF r) as [[line rest]|].
      * split; [discriminate|]. intros H. exfalso. apply H. right.
        destruct (In_dec ascii_dec LF (list_ascii_of_string r)) as [Hin|Hin];
          [exact Hin|]. apply IH in Hin. discriminate Hin.
      * split; [|reflexivity]. intros _ [E|Hin]; [congruence|].
        now apply IH in Hin.
Qed.

(** X2. On every path on which [handleConnection] returns (its read of
    the descriptor line and, when a child was started, [cmd.Wait] having
    returned), whatever the stream, the decoder and the operating system
    gave it, closing the connection is the last effect of its own
    goroutine.  That goroutine never closes the PTY master.  When it has
    opened a PTY it closes the slave, once, just before it closes the
    connection; when it has not, it closes no slave.  Whether the
    function returns at all is not part of the statement: the trace is
    that of a run up to the return. *)
Theorem X2_handleConnection_releases_what_it_holds :
  forall (json_Unmarshal : string -> option Command) (env : Env)
         (input : string) (allowedCmds : list string),
    let t := trace json_Unmarshal env input allowedCmds in
    last t Wait = Close Conn
    /\ ~ In (Close PtyMaster) t
    /\ (In (PtyOpen true) t ->
        exists pre, t = (pre ++ [Close PtySlave; Close Conn])%list
                    /\ ~ In (Close PtySlave) pre)
    /\ (~ In (PtyOpen true) t -> ~ In (Close PtySlave) t).
Proof.
  intros ju env input allowed t. subst t.
  unfold trace, handleConnection.
  destruct (ReadString LF input) as [[raw rest]|];
    [|cbn; repeat split; try discriminate;
      try (intros H; absent H); intros _ H; absent H].
  destruct (ju raw) as [c|];
    [|cbn; repeat split; try discriminate;
      try (intros H; absent H); intros _ H; absent H].
  cbn. destruct (Command_ c) as [|argv0 args];
    [cbn; repeat split; try discriminate;
      try (intros H; absent H); intros _ H; absent H|].
  assert (G : (0 <? List.length allowed)%nat
              && negb (isAllowed argv0 allowed) = false
              \/ (0 <? List.length allowed)%nat
                 && negb (isAllowed argv0 allowed) = true)
    by (destruct ((0 <? List.length allowed)%nat
                  && negb (isAllowed argv0 allowed)); auto).
  cbn [fst snd] in *.
  destruct allowed as [|b l]; cbn -[isAllowed] in *.
  - destruct (ptyOpenOk env), (setsizeOk env), (startOk env); cbn;
      repeat split; try discriminate;
      try (intros H; absent H);
      try (intros _; cut_last_two; intros H; absent H);
      try (intros H _; apply H; tauto);
      try (intros _ H; absent H).
  - destruct (isAllowed argv0 (b :: l)); cbn -[isAllowed];
      destruct (ptyOpenOk env), (setsizeOk env), (startOk env); cbn;
      repeat split; try discriminate;
      try (intros H; absent H);
      try (intros _; cut_last_two; intros H; absent H);
      try (intros H _; apply H; tauto);
      try (intros _ H; absent H).
Qed.

(** X3. The allow-list is never bypassed.  On every connection
    [handleConnection] calls [cmd.Start] at most once, and a call it
    makes is for the argv that the first line of the stream decodes to,
    whose program is on the allow-list unless the list is empty, on a
    PTY that was opened. *)
Theorem X3_only_an_allowed_command_is_started :
  forall (json_Unmarshal : string -> option Command) (env : Env)
         (input : string) (allowedCmds : list string),
    let t := trace json_Unmarshal env input allowedCmds in
    (List.length (filter isStart t) <= 1)%nat
    /\ forall c ok,
        In (Start c ok) t ->
        exists rawCommand rest cmdStruct argv0 args,
          ReadString LF input = Some (rawCommand, rest)
          /\ json_Unmarshal rawCommand = Some cmdStruct
          /\ Command_ cmdStruct = argv0 :: args
          /\ (allowedCmds = [] \/ In argv0 allowedCmds)
          /\ Path c = argv0
          /\ Args c = argv0 :: args
          /\ ptyOpenOk env = true
          /\ ok = startOk env.
Proof.
  intros ju env input allowed t. subst t.
  unfold trace, handleConnection.
  destruct (ReadString LF input) as [[raw rest]|];
    [|cbn; split; [lia | intros c ok H; absent H]].
  destruct (ju raw) as [cmd|] eqn:Ej;
    [|cbn; split; [lia | intros c ok H; absent H]].
  cbn. destruct (Command_ cmd) as [|argv0 args] eqn:Ec;
    [cbn; split; [lia | intros c ok H; absent H]|].
  cbn [fst snd] in *.
  destruct allowed as [|b l]; cbn -[isAllowed] in *.
  - destruct (ptyOpenOk env) eqn:Eo, (setsizeOk env), (startOk env) eqn:Es; cbn;
      (split; [lia|]); intros c ok H;
      repeat (destruct H as [H|H]; try discriminate H); try contradiction;
      injection H as <- <-;
      exists raw, rest, cmd, argv0, args; repeat split; auto.
  - destruct (isAllowed argv0 (b :: l)) eqn:Ea; cbn -[isAllowed];
      [|split; [cbn; lia | intros c ok H; absent H]].
    apply isAllowed_In in Ea.
    destruct (ptyOpenOk env) eqn:Eo, (setsizeOk env), (startOk env) eqn:Es; cbn;
      (split; [lia|]); intros c ok H;
      repeat (destruct H as [H|H]; try discriminate H); try contradiction;
      injection H as <- <-;
      exists raw, rest, cmd, argv0, args; repeat split; auto.
Qed.

(** The server allows only [ls]; the client asks for [ls -la]. *)
Lemma X3_only_an_allowed_command_is_started_witness :
  In (Start (mkChild "ls" ["-la"]) true)
     (trace Wire.decodeCommand allOk lsLine ["ls"])
  /\ exists argv0, Path (mkChild "ls" ["-la"]) = argv0 /\ In argv0 ["ls"].
Proof.
  assert (Hin : In (Start (mkChild "ls" ["-la"]) true)
                   (trace Wire.decodeCommand allOk lsLine ["ls"]))
    by (cbn; tauto).
  split; [exact Hin|].
  destruct (proj2 (X3_only_an_allowed_command_is_started
                     Wire.decodeCommand allOk lsLine ["ls"]) _ _ Hin)
    as (raw & rest & cmd & argv0 & args & _ & _ & _ & Hal & Hp & _).
  exists argv0. split; [exact Hp|].
  destruct Hal as [Hnil | Hal]; [discriminate Hnil | exact Hal].
Defined.

Lemma defer_emit_head (A : Type) (e x : event) (k : unit -> Body A) :
  exists tl st, defer e (bind (emit x) k) = (x :: tl, st).
Proof.
  unfold defer, bind. cbn [emit fst snd app].
  destruct (snd (k tt)); eexists; eexists; reflexivity.
Qed.

(** X4. A stream that ends before its first line feed starts nothing:
    [handleConnection] logs that it could not read the command and
    closes the connection, and that is all it does; this is so exactly
    for the streams without a line feed, the empty stream among them. *)
Theorem X4_no_line_no_session :
  forall (json_Unmarshal : string -> option Command) (env : Env)
         (input : string) (allowedCmds : list string),
    ~ In LF (list_ascii_of_string input)
    <-> handleConnection json_Unmarshal env input allowedCmds
        = ([Log "Failed to read command: "; Close Conn], Returned).
Proof.
  intros ju env input allowed. rewrite <- ReadString_None_iff.
  unfold handleConnection.
  destruct (ReadString LF input) as [[raw rest]|].
  - split; [discriminate|]. intros H. exfalso. revert H.
    cbv beta iota.
    match goal with
    | |- defer ?e (bind (emit ?x) ?k) = _ -> _ =>
      destruct (defer_emit_head _ e x k) as (tl & st & ->)
    end.
    discriminate.
  - split; [reflexivity | reflexivity].
Qed.

Lemma X4_no_line_no_session_witness :
  ~ In LF (list_ascii_of_string halfLine)
  /\ trace Wire.decodeCommand allOk halfLine []
     = [Log "Failed to read command: "; Close Conn]
  /\ trace Wire.decodeCommand allOk "" []
     = [Log "Failed to read command: "; Close Conn].
Proof.
  assert (Hn : ~ In LF (list_ascii_of_string halfLine))
    by (intros H; absent H).
  split; [exact Hn|]. split.
  - exact (f_equal fst
             (proj1 (X4_no_line_no_session Wire.decodeCommand allOk halfLine [])
                    Hn)).
  - apply (f_equal fst
             (proj1 (X4_no_line_no_session Wire.decodeCommand allOk "" [])
                    (fun H => H))).
Defined.

(** ** The resize loop as a whole *)

Lemma resizeIter_some_continues (message : string) (ok : bool) (pty : Winsize) :
  fst (fst (resizeIter (Some message) ok pty)) = Continue.
Proof.
  unfold resizeIter. destruct (HasPrefix message "resize:"); [|reflexivity].
  cbv zeta. destruct (_ =? 3)%nat; [|reflexivity].
  destruct (Atoi _); [destruct (Atoi _)|]; reflexivity.
Qed.

Lemma resizeLoop_app_noError (pre post : list (option string * bool)) :
  forall pty,
    noReadError pre = true ->
    resizeLoop (pre ++ post) pty
    = ((fst (resizeLoop pre pty)
        ++ fst (resizeLoop post (snd (resizeLoop pre pty))))%list,
       snd (resizeLoop post (snd (resizeLoop pre pty)))).
Proof.
  induction pre as [|[read ok] pre IH]; intros pty Hn.
  - cbn. now destruct (resizeLoop post pty).
  - cbn in Hn. destruct read as [message|]; [|discriminate Hn].
    cbn [app resizeLoop].
    pose proof (resizeIter_some_continues message ok pty) as Hc.
    destruct (resizeIter (Some message) ok pty) as [[k evs] pty'].
    cbn in Hc. subst k. rewrite (IH pty' Hn). cbn [fst snd].
    now rewrite app_assoc.
Qed.

Lemma resizeLoop_read_error (pre post : list (option string * bool))
      (ok : bool) :
  forall pty, resizeLoop (pre ++ (None, ok) :: post) pty = resizeLoop pre pty.
Proof.
  induction pre as [|[read ok'] pre IH]; intros pty.
  - reflexivity.
  - cbn [app resizeLoop].
    destruct (resizeIter read ok' pty) as [[[] evs] pty'];
      [now rewrite IH | reflexivity].
Qed.

(** X5. The resize loop handles its reads one after the other: what it
    does on a run of successful reads followed by more reads is what it
    does on the first run, then what it does on the rest from the
    geometry the first run left.  A read error ends it: nothing that
    follows the error is looked at, and the error itself changes
    nothing. *)
Theorem X5_resize_loop_composes_and_stops :
  forall (pre post : list (option string * bool)) (ok : bool) (pty : Winsize),
    (noReadError pre = true ->
     resizeLoop (pre ++ post) pty
     = ((fst (resizeLoop pre pty)
         ++ fst (resizeLoop post (snd (resizeLoop pre pty))))%list,
        snd (resizeLoop post (snd (resizeLoop pre pty)))))
    /\ resizeLoop (pre ++ (None, ok) :: post) pty = resizeLoop pre pty.
Proof.
  intros pre post ok pty. split.
  - apply resizeLoop_app_noError.
  - apply resizeLoop_read_error.
Qed.

Lemma X5_resize_loop_composes_and_stops_witness :
  noReadError threeResizes = true
  /\ snd (resizeLoop (threeResizes ++ [(Some resize120x40, true)])
                     (winsize 80 24))
     = winsize 120 40
  /\ snd (resizeLoop (threeResizes ++ (None, true)
                                   :: [(Some resize120x40, true)])
                     (winsize 80 24))
     = winsize 100 30.
Proof.
  split; [reflexivity|]. split.
  - rewrite (proj1 (X5_resize_loop_composes_and_stops
                      threeResizes [(Some resize120x40, true)] true
                      (winsize 80 24)) eq_refl).
    reflexivity.
  - rewrite (proj2 (X5_resize_loop_composes_and_stops
                      threeResizes [(Some resize120x40, true)] true
                      (winsize 80 24))).
    reflexivity.
Defined.

(** X6. The last resize wins.  After any reads without a read error,
    from any geometry, a well-formed line [resize:<a>:<b>] for which
    [pty.Setsize] succeeds leaves the PTY with [a] columns and [b] rows
    (modulo [2^16]); the same line once more leaves it there. *)
Theorem X6_last_resize_wins :
  forall (pre : list (option string * bool)) (a b : string)
         (width height : Z) (pty : Winsize),
    noReadError pre = true ->
    Atoi a = Some width ->
    Atoi b = Some height ->
    let line := "resize:" ++ a ++ ":" ++ b ++ nl in
    let ws := {| Rows := height mod 2 ^ 16; Cols := width mod 2 ^ 16;
                 X := 0; Y := 0 |} in
    snd (resizeLoop (pre ++ [(Some line, true)]) pty) = ws
    /\ snd (resizeLoop (pre ++ [(Some line, true); (Some line, true)]) pty)
       = ws.
Proof.
  intros pre a b width height pty Hn Ha Hb line ws.
  assert (Hiter : forall p, resizeIter (Some line) true p
                            = (Continue,
                               [Log "Resize request received";
                                PtySetsize ws true;
                                Log "Terminal resized to %dx%d"], ws)).
  { intros p. subst line. unfold resizeIter.
    replace (HasPrefix ("resize:" ++ a ++ ":" ++ b ++ nl) "resize:")
      with true by reflexivity.
    cbv zeta. rewrite (resize_line_parts a b width height Ha Hb).
    cbn [List.length Nat.eqb nth]. rewrite Ha, Hb. reflexivity. }
  split.
  - rewrite (resizeLoop_app_noError pre _ pty Hn). cbn [snd resizeLoop].
    now rewrite Hiter.
  - rewrite (resizeLoop_app_noError pre _ pty Hn). cbn [snd resizeLoop].
    rewrite Hiter. cbn [snd]. now rewrite Hiter.
Qed.

Lemma X6_last_resize_wins_witness :
  noReadError threeResizes = true
  /\ Atoi "132" = Some 132
  /\ Atoi "43" = Some 43
  /\ snd (resizeLoop (threeResizes ++ [(Some ("resize:132:43" ++ nl), true)])
                     freshPty)
     = winsize 132 43.
Proof.
  split; [reflexivity|]. split; [reflexivity|]. split; [reflexivity|].
  exact (proj1 (X6_last_resize_wins threeResizes "132" "43" 132 43 freshPty
                                    eq_refl eq_refl eq_refl)).
Defined.

Lemma resizeIter_effects (read : option string) (ok : bool) (pty : Winsize) :
  Forall resizeEffect (snd (fst (resizeIter read ok pty))).
Proof.
  unfold resizeIter. destruct read as [message|]; [|constructor].
  destruct (HasPrefix message "resize:"); [|constructor].
  cbv zeta. destruct (_ =? 3)%nat; [|repeat constructor].
  destruct (Atoi _) as [w|]; [destruct (Atoi _) as [h|]|];
    try (repeat constructor; fail).
  cbn [fst snd]. constructor; [exact I|].
  constructor; [|repeat constructor].
  unfold resizeEffect, winsize, uint16. cbn [Rows Cols X Y].
  pose proof (Z.mod_pos_bound h (2 ^ 16) eq_refl).
  pose proof (Z.mod_pos_bound w (2 ^ 16) eq_refl).
  repeat split; lia.
Qed.

(** X7. Whatever arrives on the connection, the resize loop does
    nothing but log and resize: every effect of the loop is a log line
    or a [pty.Setsize] whose rows and columns lie in [0, 2^16) and whose
    pixel sizes are zero.  It closes nothing, starts nothing and writes
    nothing to the child. *)
Theorem X7_resize_loop_only_logs_and_resizes :
  forall (reads : list (option string * bool)) (pty : Winsize),
    Forall resizeEffect (fst (resizeLoop reads pty)).
Proof.
  induction reads as [|[read ok] reads IH]; intros pty; [constructor|].
  cbn [resizeLoop].
  pose proof (resizeIter_effects read ok pty) as He.
  destruct (resizeIter read ok pty) as [[[] evs] pty']; cbn [fst snd] in *.
  - apply Forall_app. split; [exact He | apply IH].
  - exact He.
Qed.

(** ** Where the bytes of a connection go *)

Lemma append_nil_r (s : string) : s ++ "" = s.
Proof. induction s as [|c s IH]; cbn; [reflexivity | now rewrite IH]. Qed.

Lemma take_drop (n : nat) (s : string) : take n s ++ drop n s = s.
Proof.
  revert s. induction n as [|n IH]; intros [|c s]; cbn; try reflexivity.
  now rewrite IH.
Qed.

Lemma ReadString_split (delim : ascii) (s line rest : string) :
  ReadString delim s = Some (line, rest) -> s = line ++ rest.
Proof.
  revert line rest. induction s as [|c s IH]; intros line rest; cbn.
  - discriminate.
  - destruct (Ascii.eqb c delim).
    + intros [= <- <-]. reflexivity.
    + destruct (ReadString delim s) as [[l r]|]; [|discriminate].
      intros [= <- <-]. cbn. now rewrite (IH l r eq_refl).
Qed.

Lemma merge_prepend_left (t a b m : string) :
  merge a b m -> merge (t ++ a) b (t ++ m).
Proof. induction t as [|c t IH]; cbn; intros H; [exact H | constructor; auto]. Qed.

Lemma merge_prepend_right (t a b m : string) :
  merge a b m -> merge a (t ++ b) (t ++ m).
Proof. induction t as [|c t IH]; cbn; intros H; [exact H | constructor; auto]. Qed.

(** The bytes of a run, told apart by who read them. *)
Lemma run_partition :
  forall (sched : list action) (s s' : Session),
    run sched s = Some s' ->
    exists fwd ctl used handled,
      wire s = used ++ wire s'
      /\ merge fwd ctl used
      /\ ptyIn s' = ptyIn s ++ fwd
      /\ rbuf s ++ ctl = handled ++ rbuf s'.
Proof.
  induction sched as [|a sched IH]; intros s s' Hrun; cbn in Hrun.
  - injection Hrun as <-. exists "", "", "", "".
    repeat split; [constructor | now rewrite append_nil_r
                   | now rewrite append_nil_r].
  - destruct (step a s) as [s1|] eqn:Es; [|discriminate Hrun].
    destruct (IH s1 s' Hrun) as (fwd & ctl & used & handled & Hw & Hm & Hp & Hb).
    destruct a as [n|n|ok]; cbn [step] in Es.
    + destruct (canRead n s); [|discriminate Es]. injection Es as <-.
      cbn in Hw, Hp, Hb.
      exists (take n (wire s) ++ fwd), ctl, (take n (wire s) ++ used), handled.
      repeat split.
      * now rewrite append_assoc, <- Hw, take_drop.
      * now apply merge_prepend_left.
      * now rewrite Hp, append_assoc.
      * exact Hb.
    + destruct (ReadString LF (rbuf s)); [discriminate Es|].
      destruct (canRead n s); [|discriminate Es]. injection Es as <-.
      cbn in Hw, Hp, Hb.
      exists fwd, (take n (wire s) ++ ctl), (take n (wire s) ++ used), handled.
      repeat split.
      * now rewrite append_assoc, <- Hw, take_drop.
      * now apply merge_prepend_right.
      * exact Hp.
      * now rewrite <- append_assoc.
    + destruct (ReadString LF (rbuf s)) as [[message rest]|] eqn:Er;
        [|discriminate Es].
      injection Es as <-. cbn in Hw, Hp, Hb.
      apply ReadString_split in Er.
      exists fwd, ctl, used, (message ++ handled).
      repeat split; auto.
      now rewrite Er, !append_assoc, Hb.
Qed.

Lemma merge_length (a b m : string) :
  merge a b m -> String.length m = (String.length a + String.length b)%nat.
Proof.
  induction 1; cbn; [reflexivity | now rewrite IHmerge |].
  rewrite IHmerge. now rewrite Nat.add_succ_r.
Qed.

(** X8. No byte is lost on the way to a reader and none is read
    twice.  In every run of the two readers, the bytes taken off the
    connection are an interleaving of what the copier wrote to the
    child and of what the resize loop's reader took in, each in stream
    order, so that their numbers add up; the child's input only grows,
    by what the copier read; and what the reader still holds is the end
    of what it had and took in. *)
Theorem X8_each_byte_goes_to_one_reader :
  forall (sched : list action) (s s' : Session),
    run sched s = Some s' ->
    exists fwd ctl used handled,
      wire s = used ++ wire s'
      /\ merge fwd ctl used
      /\ String.length used = (String.length fwd + String.length ctl)%nat
      /\ ptyIn s' = ptyIn s ++ fwd
      /\ rbuf s ++ ctl = handled ++ rbuf s'.
Proof.
  intros sched s s' Hrun.
  destruct (run_partition sched s s' Hrun)
    as (fwd & ctl & used & handled & Hw & Hm & Hp & Hb).
  exists fwd, ctl, used, handled.
  split; [exact Hw|]. split; [exact Hm|].
  split; [exact (merge_length _ _ _ Hm)|].
  split; [exact Hp | exact Hb].
Qed.

Lemma X8_each_byte_goes_to_one_reader_witness :
  run [CopyRead 14; BufFill 6; CtlLine true] helloSession
  = Some {| wire := ""; rbuf := ""; ptyIn := resize120x40;
            size := winsize 80 24; ctlTrace := [] |}
  /\ exists fwd ctl used,
      wire helloSession = used ++ ""
      /\ merge fwd ctl used
      /\ resize120x40 = "" ++ fwd.
Proof.
  assert (Hrun : run [CopyRead 14; BufFill 6; CtlLine true] helloSession
                 = Some {| wire := ""; rbuf := ""; ptyIn := resize120x40;
                           size := winsize 80 24; ctlTrace := [] |})
    by reflexivity.
  split; [exact Hrun|].
  destruct (X8_each_byte_goes_to_one_reader _ _ _ Hrun)
    as (fwd & ctl & used & handled & Hw & Hm & _ & Hp & _).
  exists fwd, ctl, used. repeat split; assumption.
Defined.

(** X9. When the copier is the only one to read, the child receives
    the stream as it is: after any number of reads of any sizes, what
    was written to the child followed by what is still on the
    connection is what it was, and the reader's buffer, the geometry
    and the resize loop's effects are untouched. *)
Theorem X9_copier_alone_forwards_unchanged :
  forall (sched : list action) (s s' : Session),
    onlyCopy sched = true ->
    run sched s = Some s' ->
    ptyIn s' ++ wire s' = ptyIn s ++ wire s
    /\ rbuf s' = rbuf s
    /\ size s' = size s
    /\ ctlTrace s' = ctlTrace s.
Proof.
  induction sched as [|a sched IH]; intros s s' Hc Hrun; cbn in Hrun, Hc.
  - injection Hrun as <-. repeat split.
  - apply andb_prop in Hc as [Ha Hc].
    destruct a as [n|n|ok]; try discriminate Ha. cbn in Hrun.
    destruct (canRead n s); [|discriminate Hrun].
    destruct (IH _ _ Hc Hrun) as (Hp & Hb & Hz & Ht). cbn in Hp, Hb, Hz, Ht.
    repeat split; auto.
    now rewrite Hp, append_assoc, take_drop.
Qed.

Lemma X9_copier_alone_forwards_unchanged_witness :
  onlyCopy [CopyRead 5; CopyRead 9; CopyRead 6] = true
  /\ exists s',
      run [CopyRead 5; CopyRead 9; CopyRead 6] helloSession = Some s'
      /\ ptyIn s' ++ wire s' = resize120x40 ++ "hello" ++ nl
      /\ size s' = winsize 80 24.
Proof.
  split; [reflexivity|].
  eexists. split; [reflexivity|].
  destruct (X9_copier_alone_forwards_unchanged
              [CopyRead 5; CopyRead 9; CopyRead 6] helloSession _
              eq_refl eq_refl) as (Hp & _ & Hz & _).
  split; [exact Hp | exact Hz].
Defined.

(** ** The program name and the default command *)

Lemma untilSlash_app (l r : list ascii) :
  ~ In "/"%char l -> untilSlash (l ++ "/"%char :: r) = l.
Proof.
  induction l as [|c l IH]; cbn; intros H.
  - reflexivity.
  - destruct (Ascii.eqb_spec c "/") as [->|_]; [exfalso; apply H; now left|].
    rewrite IH; [reflexivity | intros Hin; apply H; now right].
Qed.

Lemma untilSlash_none (l : list ascii) :
  ~ In "/"%char l -> untilSlash l = l.
Proof.
  induction l as [|c l IH]; cbn; intros H.
  - reflexivity.
  - destruct (Ascii.eqb_spec c "/") as [->|_]; [exfalso; apply H; now left|].
    rewrite IH; [reflexivity | intros Hin; apply H; now right].
Qed.

Lemma stripSlashesRev_name (l : list ascii) :
  ~ In "/"%char l -> stripSlashesRev l = l.
Proof.
  destruct l as [|c l]; cbn; intros H; [reflexivity|].
  destruct (Ascii.eqb_spec c "/") as [->|_]; [exfalso; apply H; now left|].
  reflexivity.
Qed.

Lemma stripSlashesRev_app (l r : list ascii) :
  l <> [] -> ~ In "/"%char l -> stripSlashesRev (l ++ r) = (l ++ r)%list.
Proof.
  destruct l as [|c l]; [congruence|]. cbn. intros _ H.
  destruct (Ascii.eqb_spec c "/") as [->|_]; [exfalso; apply H; now left|].
  reflexivity.
Qed.

Lemma rev_name (name : string) :
  isFileName name ->
  rev (list_ascii_of_string name) <> []
  /\ ~ In "/"%char (rev (list_ascii_of_string name)).
Proof.
  intros [Hne Hs]. split.
  - destruct name as [|c r]; [congruence|]. cbn.
    intros H. apply app_eq_nil in H as [_ H]. discriminate H.
  - intros H. apply Hs. now apply in_rev.
Qed.

Lemma Base_nonempty (p : string) :
  p <> "" ->
  Base p = match untilSlash (stripSlashesRev (rev (list_ascii_of_string p))) with
           | [] => "/"
           | l => string_of_list_ascii (rev l)
           end.
Proof. destruct p; [congruence | reflexivity]. Qed.

Lemma last_element (d n : list ascii) :
  rev n <> [] -> ~ In "/"%char (rev n) ->
  untilSlash (stripSlashesRev (rev (d ++ "/"%char :: n))) = rev n.
Proof.
  intros Hne Hs. rewrite rev_app_distr. cbn [rev].
  rewrite <- app_assoc. cbn [app].
  rewrite stripSlashesRev_app by assumption.
  now apply untilSlash_app.
Qed.

Lemma name_back (n : list ascii) :
  rev n <> [] ->
  match rev n with
  | [] => "/"
  | l => string_of_list_ascii (rev l)
  end = string_of_list_ascii n.
Proof.
  intros Hne. destruct (rev n) eqn:Er; [congruence|].
  now rewrite <- Er, rev_involutive.
Qed.

(** [path.Base] of a file name under a directory, and of a bare file
    name, is the file name. *)
Lemma Base_file (dir name : string) :
  isFileName name ->
  Base (dir ++ "/" ++ name) = name /\ Base name = name.
Proof.
  intros Hn. destruct (rev_name name Hn) as [Hne Hs]. split.
  - rewrite Base_nonempty by (destruct dir; discriminate).
    rewrite list_ascii_of_string_app. cbn [append list_ascii_of_string].
    rewrite last_element by assumption.
    rewrite name_back by assumption.
    apply string_of_list_ascii_of_string.
  - rewrite Base_nonempty by (apply Hn).
    rewrite stripSlashesRev_name by assumption.
    rewrite untilSlash_none by assumption.
    rewrite name_back by assumption.
    apply string_of_list_ascii_of_string.
Qed.

(** X10. Only the file name of the binary decides the default.  In
    client mode without positional arguments: invoked as [hrun], alone
    or under any directory, the client asks for [sh -c $SHELL]; invoked
    under any other file name, alone or under any directory, it asks for
    the empty command. *)
Theorem X10_default_command_depends_on_file_name :
  forall (dir name shell : string) (f : Flags),
    helpFlag f = false ->
    helpFlagLong f = false ->
    startFlag f = false ->
    flagArgs f = [] ->
    isFileName name ->
    (name = "hrun" ->
     requested (dir ++ "/" ++ name) shell f = Some ["sh"; "-c"; shell]
     /\ requested name shell f = Some ["sh"; "-c"; shell])
    /\ (name <> "hrun" ->
        requested (dir ++ "/" ++ name) shell f = Some []
        /\ requested name shell f = Some []).
Proof.
  intros dir name shell f Hh Hl Hs Ha Hn.
  destruct (Base_file dir name Hn) as [Hb1 Hb2].
  unfold requested, main. rewrite Hh, Hl, Hs, Ha, Hb1, Hb2. cbn [orb].
  split.
  - intros ->. split; reflexivity.
  - intros Hne. apply String.eqb_neq in Hne. rewrite Hne. split; reflexivity.
Qed.

Lemma X10_default_command_depends_on_file_name_witness :
  isFileName "hrun"
  /\ requested ("/opt/tools/bin" ++ "/" ++ "hrun") "/bin/zsh" (hrunFlags [])
     = Some ["sh"; "-c"; "/bin/zsh"].
Proof.
  assert (Hn : isFileName "hrun").
  { split; [discriminate | intros H; absent H]. }
  split; [exact Hn|].
  exact (proj1 (proj1 (X10_default_command_depends_on_file_name
                         "/opt/tools/bin" "hrun" "/bin/zsh" (hrunFlags [])
                         eq_refl eq_refl eq_refl eq_refl Hn) eq_refl)).
Defined.

(** ** The client before it waits *)

Lemma last_two (A : Type) (l : list A) (a b d : A) :
  last (l ++ [a; b]) d = b.
Proof.
  change [a; b] with ([a] ++ [b])%list.
  rewrite app_assoc. apply last_last.
Qed.

(** X11. The client sets up in order and undoes what it did.  When the
    dial fails it logs and returns, and does nothing else.  It tries to
    enter raw mode only after the terminal size was read, the descriptor
    encoded and its line written to the connection with success.  It
    restores the terminal only when raw mode was entered.  And when the
    dial succeeded, every path on which it returns ends with the
    connection closed. *)
Theorem X11_client_sets_up_in_order :
  forall (json_Marshal : Command -> option string) (env : ClientEnv)
         (command : list string) (hs : list happening),
    let r := startClient json_Marshal env command hs in
    (dialOk env = false ->
     r = ([Dial false; Log "Error connecting to the host:"], Returned))
    /\ (forall ok, In (MakeRaw ok) (fst r) ->
                   exists w h cmdBytes,
                     termSize env = Some (w, h)
                     /\ json_Marshal {| Command_ := command;
                                        Width := w mod 2 ^ 16;
                                        Height := h mod 2 ^ 16 |}
                        = Some cmdBytes
                     /\ In (Write Conn (cmdBytes ++ nl) true) (fst r))
    /\ (In Restore (fst r) -> In (MakeRaw true) (fst r))
    /\ (dialOk env = true ->
        (forall h, snd r <> Halted h) ->
        last (fst r) Wait = Close Conn).
Proof.
  intros jm env command hs r. subst r. unfold startClient.
  destruct (dialOk env).
  2:{ cbn. repeat split; try discriminate; intros; absent H. }
  destruct (termSize env) as [[w h]|].
  2:{ cbn. repeat split; try discriminate; try reflexivity;
      intros; absent H. }
  cbn [bind emit ret fst snd app defer]. unfold uint16.
  destruct (jm _) as [cmdBytes|] eqn:Ej.
  2:{ cbn. repeat split; try discriminate; try reflexivity;
      intros; absent H. }
  destruct (writeOk env).
  2:{ cbn. repeat split; try discriminate; try reflexivity;
      intros; absent H. }
  destruct (makeRawOk env).
  2:{ cbn. repeat split; try discriminate; try reflexivity.
      - intros ok H. exists w, h, cmdBytes. repeat split; auto.
      - intros H. absent H. }
  unfold bind, defer. cbn [emit ret fst snd app].
  pose proof (duplexing_keepsMode hs false) as Hk.
  destruct (duplexing hs false) as [tr [[]| |hh]]; cbn [fst snd app] in *.
  - repeat split; try discriminate.
    + intros ok H. exists w, h, cmdBytes. repeat split; cbn; auto.
    + intros _. cbn. tauto.
    + intros _ _.
      change (Dial true :: GetSize (Some (w, h))
                   :: Write Conn (cmdBytes ++ nl) true :: Notify [SIGWINCH]
                   :: Go WinchLoop :: MakeRaw true :: Go CopyStdinToConn
                   :: Go CopyConnToStdout :: (tr ++ [Restore]) ++ [Close Conn])%list
        with ([Dial true; GetSize (Some (w, h));
               Write Conn (cmdBytes ++ nl) true; Notify [SIGWINCH];
               Go WinchLoop; MakeRaw true; Go CopyStdinToConn;
               Go CopyConnToStdout]
              ++ ((tr ++ [Restore]) ++ [Close Conn]))%list.
      rewrite <- app_assoc, app_assoc. apply last_two.
  - repeat split; try discriminate.
    + intros ok H. exists w, h, cmdBytes. repeat split; cbn; auto.
    + intros _. cbn. tauto.
    + intros _ _.
      change (Dial true :: GetSize (Some (w, h))
                   :: Write Conn (cmdBytes ++ nl) true :: Notify [SIGWINCH]
                   :: Go WinchLoop :: MakeRaw true :: Go CopyStdinToConn
                   :: Go CopyConnToStdout :: (tr ++ [Restore]) ++ [Close Conn])%list
        with ([Dial true; GetSize (Some (w, h));
               Write Conn (cmdBytes ++ nl) true; Notify [SIGWINCH];
               Go WinchLoop; MakeRaw true; Go CopyStdinToConn;
               Go CopyConnToStdout]
              ++ ((tr ++ [Restore]) ++ [Close Conn]))%list.
      rewrite <- app_assoc, app_assoc. apply last_two.
  - repeat split; try discriminate.
    + intros ok H. exists w, h, cmdBytes. repeat split; cbn; auto.
    + intros _. cbn. tauto.
    + intros _ H. exfalso. now apply (H hh).
Qed.

Lemma X11_client_sets_up_in_order_witness :
  dialOk (mkClientEnv false None true true) = false
  /\ startClient Wire.encodeCommand (mkClientEnv false None true true)
                 ["cat"] resizedThenClosed
     = ([Dial false; Log "Error connecting to the host:"], Returned)
  /\ In Restore
        (fst (startClient Wire.encodeCommand clientOk ["cat"] resizedThenClosed))
  /\ In (MakeRaw true)
        (fst (startClient Wire.encodeCommand clientOk ["cat"] resizedThenClosed)).
Proof.
  split; [reflexivity|]. split.
  - exact (proj1 (X11_client_sets_up_in_order
                    Wire.encodeCommand (mkClientEnv false None true true)
                    ["cat"] resizedThenClosed) eq_refl).
  - assert (Hr : In Restore
                    (fst (startClient Wire.encodeCommand clientOk ["cat"]
                                      resizedThenClosed)))
      by (cbn; tauto).
    split; [exact Hr|].
    exact (proj1 (proj2 (proj2 (X11_client_sets_up_in_order
                                  Wire.encodeCommand clientOk ["cat"]
                                  resizedThenClosed))) Hr).
Defined.

(** ** What the handshake leaves to the two readers *)

Lemma running_start :
  forall (json_Unmarshal : string -> option Command) (env : Env)
         (input rawCommand rest : string) (allowedCmds : list string)
         (s0 : Session),
    ReadString LF input = Some (rawCommand, rest) ->
    running json_Unmarshal env input allowedCmds = Some s0 ->
    wire s0 = drop (prefetch env) rest
    /\ rbuf s0 = take (prefetch env) rest
    /\ ptyIn s0 = "".
Proof.
  intros ju env input raw rest allowed s0 Hread. unfold running.
  rewrite Hread. destruct (_ && _); [|discriminate].
  intros [= <-]. repeat split.
Qed.

(** X12. Nothing that follows the descriptor line is lost at the
    handshake, but what the handshake read ahead is out of the child's
    reach.  When the session starts, the bytes that follow the
    descriptor line are the reader's buffer followed by what is still on
    the connection, and the child has received nothing.  In every run
    that follows, what the child receives is taken, in order, from the
    bytes that were still on the connection: no byte that the first
    [ReadString] had already buffered is ever written to the child. *)
Theorem X12_read_ahead_bytes_never_reach_the_child :
  forall (json_Unmarshal : string -> option Command) (env : Env)
         (input rawCommand rest : string) (allowedCmds : list string)
         (s0 s' : Session) (sched : list action),
    ReadString LF input = Some (rawCommand, rest) ->
    running json_Unmarshal env input allowedCmds = Some s0 ->
    run sched s0 = Some s' ->
    rbuf s0 ++ wire s0 = rest
    /\ rbuf s0 = take (prefetch env) rest
    /\ exists ctl used,
        drop (prefetch env) rest = used ++ wire s'
        /\ merge (ptyIn s') ctl used.
Proof.
  intros ju env input raw rest allowed s0 s' sched Hread Hrun0 Hrun.
  destruct (running_start ju env input raw rest allowed s0 Hread Hrun0)
    as (Hw & Hb & Hp).
  split; [now rewrite Hw, Hb, take_drop|]. split; [exact Hb|].
  destruct (run_partition sched s0 s' Hrun)
    as (fwd & ctl & used & handled & Hw' & Hm & Hp' & _).
  exists ctl, used. rewrite <- Hw. split; [exact Hw'|].
  rewrite Hp', Hp. exact Hm.
Qed.

Lemma X12_read_ahead_bytes_never_reach_the_child_witness :
  ReadString LF typedThenResize = Some (catLine, "ab" ++ resize120x40)
  /\ exists s0 s',
      running Wire.decodeCommand oneSegment typedThenResize [] = Some s0
      /\ run [CtlLine true] s0 = Some s'
      /\ rbuf s0 = "ab" ++ resize120x40
      /\ exists ctl used, "" = used ++ wire s' /\ merge (ptyIn s') ctl used.
Proof.
  assert (Hread : ReadString LF typedThenResize
                  = Some (catLine, "ab" ++ resize120x40)) by reflexivity.
  split; [exact Hread|].
  eexists. eexists.
  split; [reflexivity|]. split; [reflexivity|].
  destruct (X12_read_ahead_bytes_never_reach_the_child
              Wire.decodeCommand oneSegment typedThenResize _ _ [] _ _
              [CtlLine true] Hread eq_refl eq_refl)
    as (_ & Hb & ctl & used & Hu & Hm).
  split; [exact Hb|].
  exists ctl, used. split; [exact Hu | exact Hm].
Defined.

(** ** The listener *)

Lemma acceptLoop_accepts (allowed : list string) (conns : list nat)
      (rest : list selected) :
  handlers (fst (acceptLoop allowed (accepts conns ++ rest)))
  = (map (fun conn => (conn, allowed)) conns
     ++ handlers (fst (acceptLoop allowed rest)))%list
  /\ snd (acceptLoop allowed (accepts conns ++ rest))
     = snd (acceptLoop allowed rest)
  /\ (In ListenerClosed (fst (acceptLoop allowed (accepts conns ++ rest)))
      -> In ListenerClosed (fst (acceptLoop allowed rest))).
Proof.
  induction conns as [|c conns (IH1 & IH2 & IH3)]; [auto|].
  cbn [accepts map app acceptLoop acceptConn fst snd handlers flat_map].
  fold (accepts conns). fold (handlers (fst (acceptLoop allowed
                                                (accepts conns ++ rest)))).
  rewrite IH1, IH2. repeat split.
  intros [H|H]; [discriminate H | auto].
Qed.

Lemma acceptLoop_stop (allowed : list string) (stop : selected)
      (rest : list selected) :
  stops stop = true ->
  handlers (fst (acceptLoop allowed (stop :: rest))) = []
  /\ snd (acceptLoop allowed (stop :: rest)) = Returned
  /\ ~ In ListenerClosed (fst (acceptLoop allowed (stop :: rest))).
Proof.
  destruct stop as [|[c|]]; cbn; intros H; try discriminate H;
    repeat split; intros H'; absent H'.
Qed.

(** X15. The listener starts one handler for each connection it
    accepts, in the order it accepts them and with the allow-list it was
    given, until the first shutdown or failed accept; then it starts no
    more, whatever is still to come, closes the listener as its last
    effect and returns.  While neither has happened it waits, with the
    listener open.  When it cannot listen it panics, having started
    nothing. *)
Theorem X15_listener_dispatches_until_it_stops :
  forall (allowedCmds : list string) (socket : string) (conns : list nat),
    (forall (stop : selected) (rest : list selected),
        stops stop = true ->
        let r := startServer true allowedCmds socket
                             (accepts conns ++ stop :: rest) in
        snd r = Returned
        /\ handlers (fst r) = map (fun conn => (conn, allowedCmds)) conns
        /\ last (fst r) Watching = ListenerClosed)
    /\ (let r := startServer true allowedCmds socket (accepts conns) in
        snd r = Halted Waiting
        /\ handlers (fst r) = map (fun conn => (conn, allowedCmds)) conns
        /\ ~ In ListenerClosed (fst r))
    /\ (forall sel,
           startServer false allowedCmds socket sel
           = ([Listening socket false], Halted Panicked)).
Proof.
  intros allowed socket conns. split; [|split].
  - intros stop rest Hs r. subst r. unfold startServer.
    destruct (acceptLoop_accepts allowed conns (stop :: rest))
      as (Hh & Hst & _).
    destruct (acceptLoop_stop allowed stop rest Hs) as (Hh0 & Hst0 & _).
    rewrite Hst, Hst0. cbn [fst snd]. split; [reflexivity|]. split.
    + unfold handlers in *. rewrite !flat_map_app. cbn [flat_map app].
      rewrite Hh, Hh0. now rewrite !app_nil_r.
    + rewrite app_assoc. apply last_last.
  - intros r. subst r. unfold startServer.
    pose proof (acceptLoop_accepts allowed conns []) as (Hh & Hst & Hc).
    rewrite app_nil_r in Hh, Hst, Hc. rewrite Hst. cbn [acceptLoop fst snd].
    split; [reflexivity|]. split.
    + unfold handlers in *. rewrite flat_map_app. cbn [flat_map app].
      rewrite Hh. cbn. now rewrite app_nil_r.
    + intros [H|[H|[H|H]]]; try discriminate H.
      apply Hc in H. exact H.
  - reflexivity.
Qed.

Lemma X15_listener_dispatches_until_it_stops_witness :
  stops (OnAccept None) = true
  /\ handlers (fst (startServer true ["ls"] "/tmp/hrun.sock"
                                (accepts [1; 2]%nat ++ OnAccept None
                                         :: accepts [3]%nat)))
     = [(1%nat, ["ls"]); (2%nat, ["ls"])]
  /\ snd (startServer true ["ls"] "/tmp/hrun.sock"
                      (accepts [1; 2]%nat ++ OnAccept None :: accepts [3]%nat))
     = Returned.
Proof.
  split; [reflexivity|].
  destruct (proj1 (X15_listener_dispatches_until_it_stops
                     ["ls"] "/tmp/hrun.sock" [1; 2]%nat)
                  (OnAccept None) (accepts [3]%nat) eq_refl)
    as (Hr & Hh & _).
  split; [exact Hh | exact Hr].
Defined.

(** ** From the client's descriptor to the server's child *)

Lemma ReadString_line (bytes : string) :
  ~ In LF (list_ascii_of_string bytes) ->
  ReadString LF (bytes ++ nl) = Some (bytes ++ nl, "").
Proof.
  induction bytes as [|c r IH]; cbn [append list_ascii_of_string In ReadString].
  - intros _. reflexivity.
  - intros H. destruct (Ascii.eqb_spec c LF) as [->|_].
    + exfalso. apply H. now left.
    + rewrite IH; [reflexivity | intros Hin; apply H; now right].
Qed.

(** X16. What the client asks for is what the server starts.  Let the
    client be given a non-empty command and read a terminal size, let
    the encoding of its descriptor be free of line feeds and let the
    server's decoder read that line back.  Then the line the client
    writes, received by a server that allows the program and can open a
    PTY, makes [handleConnection] ask the PTY for the client's terminal
    size (modulo [2^16]) and call [cmd.Start] on exactly the client's
    command. *)
Theorem X16_descriptor_from_client_to_child :
  forall (json_Marshal : Command -> option string)
         (json_Unmarshal : string -> option Command)
         (cenv : ClientEnv) (env : Env) (hs : list happening)
         (argv0 : string) (args allowedCmds : list string)
         (w h : Z) (cmdBytes : string),
    dialOk cenv = true ->
    termSize cenv = Some (w, h) ->
    json_Marshal {| Command_ := argv0 :: args;
                    Width := w mod 2 ^ 16; Height := h mod 2 ^ 16 |}
    = Some cmdBytes ->
    ~ In LF (list_ascii_of_string cmdBytes) ->
    json_Unmarshal (cmdBytes ++ nl)
    = Some {| Command_ := argv0 :: args;
              Width := w mod 2 ^ 16; Height := h mod 2 ^ 16 |} ->
    allowedCmds = [] \/ In argv0 allowedCmds ->
    ptyOpenOk env = true ->
    exists line,
      In (Write Conn line (writeOk cenv))
         (fst (startClient json_Marshal cenv (argv0 :: args) hs))
      /\ In (PtySetsize {| Rows := h mod 2 ^ 16; Cols := w mod 2 ^ 16;
                           X := 0; Y := 0 |} (setsizeOk env))
            (trace json_Unmarshal env line allowedCmds)
      /\ In (Start {| Path := argv0; Args := argv0 :: args;
                      Stdin := PtySlave; Stdout := PtySlave;
                      Stderr := PtySlave;
                      Attr := {| Setctty := true; Setsid := true;
                                 Pdeathsig := SIGTERM |} |} (startOk env))
            (trace json_Unmarshal env line allowedCmds).
Proof.
  intros jm ju cenv env hs argv0 args allowed w h cmdBytes
         Hd Ht Hj Hnl Hu Hal Hopen.
  exists (cmdBytes ++ nl). split; [|split].
  - unfold startClient. rewrite Hd, Ht.
    cbn [bind emit ret fst snd app defer].
    unfold uint16. rewrite Hj.
    destruct (writeOk cenv); cbn; [|tauto].
    unfold defer, bind. cbn.
    destruct (makeRawOk cenv); cbn; [|tauto].
    destruct (snd (duplexing hs false)); cbn; tauto.
  - rewrite (accepted_trace ju env (cmdBytes ++ nl) (cmdBytes ++ nl) ""
               allowed _ argv0 args (ReadString_line _ Hnl) Hu eq_refl
               Hal Hopen).
    cbn. tauto.
  - rewrite (accepted_trace ju env (cmdBytes ++ nl) (cmdBytes ++ nl) ""
               allowed _ argv0 args (ReadString_line _ Hnl) Hu eq_refl
               Hal Hopen).
    apply in_or_app. right. left. reflexivity.
Qed.

Lemma X16_descriptor_from_client_to_child_witness :
  exists cmdBytes line,
    Wire.encodeCommand {| Command_ := ["ls"; "-la"];
                          Width := 80 mod 2 ^ 16; Height := 24 mod 2 ^ 16 |}
    = Some cmdBytes
    /\ ~ In LF (list_ascii_of_string cmdBytes)
    /\ In (Write Conn line true)
          (fst (startClient Wire.encodeCommand clientOk ["ls"; "-la"] []))
    /\ In (Start (mkChild "ls" ["-la"]) true)
          (trace Wire.decodeCommand allOk line ["ls"]).
Proof.
  eexists. 
  assert (Hb : Wire.encodeCommand
                 {| Command_ := ["ls"; "-la"];
                    Width := 80 mod 2 ^ 16; Height := 24 mod 2 ^ 16 |}
               = Some (take (String.length lsLine - 1) lsLine))
    by reflexivity.
  assert (Hn : ~ In LF (list_ascii_of_string
                          (take (String.length lsLine - 1) lsLine)))
    by (intros H; absent H).
  destruct (X16_descriptor_from_client_to_child
              Wire.encodeCommand Wire.decodeCommand clientOk allOk []
              "ls" ["-la"] ["ls"] 80 24 _
              eq_refl eq_refl Hb Hn eq_refl
              (or_intror (or_introl eq_refl)) eq_refl)
    as (line & Hw & _ & Hs).
  exists line. split; [exact Hb|]. split; [exact Hn|].
  split; [exact Hw | exact Hs].
Defined.

(** ** The geometry and the resize loop's effects *)

Lemma ptyAfter_app (t1 t2 : list event) (pty : Winsize) :
  ptyAfter (t1 ++ t2) pty = ptyAfter t2 (ptyAfter t1 pty).
Proof. unfold ptyAfter. apply fold_left_app. Qed.

Lemma resizeIter_geometry (read : option string) (ok : bool) (pty : Winsize) :
  snd (resizeIter read ok pty)
  = ptyAfter (snd (fst (resizeIter read ok pty))) pty.
Proof.
  unfold resizeIter. destruct read as [message|]; [|reflexivity].
  destruct (HasPrefix message "resize:"); [|reflexivity].
  cbv zeta. destruct (_ =? 3)%nat; [|reflexivity].
  destruct (Atoi _); [destruct (Atoi _)|]; reflexivity.
Qed.

(** X17. The geometry of the PTY is at every moment what the resize
    loop's successful [pty.Setsize] calls made it: in every run of the
    two readers, the geometry reached is the one the session started
    with, changed by the loop's effects of that run in their order, and
    all of these are logs and resizes within [uint16]; reads by the
    copier never change it. *)
Theorem X17_geometry_follows_the_resize_effects :
  forall (sched : list action) (s s' : Session),
    run sched s = Some s' ->
    exists added,
      ctlTrace s' = (ctlTrace s ++ added)%list
      /\ size s' = ptyAfter added (size s)
      /\ Forall resizeEffect added.
Proof.
  induction sched as [|a sched IH]; intros s s' Hrun; cbn [run] in Hrun.
  - injection Hrun as <-. exists []. rewrite app_nil_r.
    repeat split. constructor.
  - destruct (step a s) as [s1|] eqn:Es; [|discriminate Hrun].
    destruct (IH s1 s' Hrun) as (added & Ht & Hz & Hf).
    destruct a as [n|n|ok]; cbn [step] in Es.
    + destruct (canRead n s); [|discriminate Es]. injection Es as <-.
      exists added. auto.
    + destruct (ReadString LF (rbuf s)); [discriminate Es|].
      destruct (canRead n s); [|discriminate Es]. injection Es as <-.
      exists added. auto.
    + destruct (ReadString LF (rbuf s)) as [[message rest]|];
        [|discriminate Es].
      injection Es as <-. cbn [ctlTrace size] in Ht, Hz.
      exists (snd (fst (resizeIter (Some message) ok (size s))) ++ added)%list.
      split; [now rewrite Ht, app_assoc|]. split.
      * now rewrite Hz, ptyAfter_app, <- resizeIter_geometry.
      * apply Forall_app. split; [apply resizeIter_effects | exact Hf].
Qed.

Lemma X17_geometry_follows_the_resize_effects_witness :
  exists s' added,
    run [BufFill 14; CtlLine true; CopyRead 6] helloSession = Some s'
    /\ ctlTrace s' = added
    /\ size s' = ptyAfter added (winsize 80 24)
    /\ size s' = winsize 120 40.
Proof.
  eexists. eexists. split; [reflexivity|].
  destruct (X17_geometry_follows_the_resize_effects
              [BufFill 14; CtlLine true; CopyRead 6] helloSession _ eq_refl)
    as (added & Ht & Hz & _).
  split; [reflexivity|]. split; [|reflexivity].
  cbn [app helloSession ctlTrace] in Ht. rewrite Hz. f_equal.
  symmetry. exact Ht.
Defined.

(** ** Both copy directions ending *)

Lemma duplexing_winch (ws rest : list happening) (closed : bool) :
  onlyWinch ws = true ->
  snd (duplexing (ws ++ rest) closed) = snd (duplexing rest closed).
Proof.
  induction ws as [|h ws IH]; intros Hw; [reflexivity|].
  cbn in Hw. apply andb_prop in Hw as [Hh Hw].
  destruct h as [g err|sig size sent|]; try discriminate Hh.
  destruct sig; try discriminate Hh.
  cbn [app duplexing clientNotified]. unfold bind.
  destruct (sendTerminalSize_value size sent) as [Hv _].
  rewrite Hv. cbn [fst snd]. apply IH, Hw.
Qed.

(** X18. The second [close(doneCh)] panics.  When, after any window
    changes, one copy direction ends and then, before the main goroutine
    has run, the other ends too, the client panics: [startClient] does
    not return, and a terminal that was put in raw mode is not
    restored. *)
Theorem X18_second_close_panics :
  forall (json_Marshal : Command -> option string) (env : ClientEnv)
         (command : list string) (before mid after : list happening)
         (g1 g2 : goroutine) (err1 err2 : bool),
    let r := startClient json_Marshal env command
                         (before ++ CopyDone g1 err1
                                 :: mid ++ CopyDone g2 err2 :: after) in
    onlyWinch before = true ->
    onlyWinch mid = true ->
    In (MakeRaw true) (fst r) ->
    snd r = Halted Panicked /\ ~ In Restore (fst r).
Proof.
  intros jm env command before mid after g1 g2 err1 err2 r Hb Hm Hraw.
  subst r.
  destruct (startClient_raw jm env command _ Hraw) as (setup & Hk & E).
  assert (Hd : snd (duplexing (before ++ CopyDone g1 err1
                                      :: mid ++ CopyDone g2 err2 :: after)
                              false) = Halted Panicked).
  { rewrite (duplexing_winch before _ false Hb).
    cbn [duplexing]. unfold bind.
    assert (Hin : snd (duplexing (mid ++ CopyDone g2 err2 :: after) true)
                  = Halted Panicked).
    { rewrite (duplexing_winch mid _ true Hm). cbn [duplexing]. unfold bind.
      destruct err2; reflexivity. }
    destruct err1; cbn [emit ret fst snd]; exact Hin. }
  rewrite Hd in E. rewrite E. cbn [fst snd]. split; [reflexivity|].
  pose proof (duplexing_keepsMode
                (before ++ CopyDone g1 err1 :: mid ++ CopyDone g2 err2 :: after)
                false) as Hkd.
  intros H. apply in_app_or in H as [H|[H|[H|[H|H]]]];
    try discriminate H;
    revert H; apply keepsMode_not_In; auto.
Qed.

Lemma X18_second_close_panics_witness :
  onlyWinch [] = true
  /\ In (MakeRaw true)
        (fst (startClient Wire.encodeCommand clientOk ["cat"] bothEnd))
  /\ snd (startClient Wire.encodeCommand clientOk ["cat"] bothEnd)
     = Halted Panicked.
Proof.
  split; [reflexivity|].
  assert (Hraw : In (MakeRaw true)
                    (fst (startClient Wire.encodeCommand clientOk ["cat"]
                                      bothEnd)))
    by (cbn; tauto).
  split; [exact Hraw|].
  exact (proj1 (X18_second_close_panics
                  Wire.encodeCommand clientOk ["cat"] [] [] [MainRuns]
                  CopyConnToStdout CopyStdinToConn false true
                  eq_refl eq_refl Hraw)).
Defined.

(** ** White space after a resize line *)

Lemma asciiSpace_low (c : ascii) :
  isAsciiSpace c = true -> (code c <? 128)%N = true.
Proof.
  destruct c as [[] [] [] [] [] [] [] []]; cbv; intros H;
    try discriminate H; reflexivity.
Qed.

Lemma dropWhile_spaces (w : list ascii) (x : ascii) (r : list ascii) :
  forall fuel,
    Forall (fun c => isAsciiSpace c = true) w ->
    plain x = true ->
    (List.length w < fuel)%nat ->
    dropWhile dropSpaceRuneRev fuel (w ++ x :: r) = x :: r.
Proof.
  induction w as [|c w IH]; intros fuel Hw Hx Hf.
  - destruct fuel as [|fuel]; [lia|]. cbn [app dropWhile].
    now rewrite (dropSpaceRuneRev_plain x r Hx).
  - destruct fuel as [|fuel]; [cbn in Hf; lia|].
    inversion Hw as [|? ? Hc Hw']; subst.
    cbn [app dropWhile]. unfold dropSpaceRuneRev at 1.
    rewrite (asciiSpace_low c Hc), Hc.
    apply IH; auto. cbn in Hf. lia.
Qed.

Lemma trimRight_spaces (m w : list ascii) (x : ascii) :
  Forall (fun c => isAsciiSpace c = true) w ->
  plain x = true ->
  trimRight ((m ++ [x]) ++ w) = (m ++ [x])%list.
Proof.
  intros Hw Hx. unfold trimRight.
  rewrite !rev_app_distr. cbn [rev app]. rewrite <- app_assoc. cbn [app].
  rewrite dropWhile_spaces.
  - cbn [rev]. now rewrite rev_involutive.
  - now apply Forall_rev.
  - exact Hx.
  - rewrite length_rev, !length_app. cbn. lia.
Qed.

Lemma TrimSpace_spaces (c x : ascii) (t m ws : string) :
  plain c = true -> plain x = true ->
  String c t = m ++ String x "" ->
  Forall (fun c => isAsciiSpace c = true) (list_ascii_of_string ws) ->
  TrimSpace (String c t ++ ws) = String c t.
Proof.
  intros Hc Hx E Hw. unfold TrimSpace.
  rewrite list_ascii_of_string_app.
  cbn [list_ascii_of_string app].
  rewrite (trimLeft_plain c _ Hc).
  change (c :: (list_ascii_of_string t ++ list_ascii_of_string ws)%list)
    with (list_ascii_of_string (String c t) ++ list_ascii_of_string ws)%list.
  rewrite E, list_ascii_of_string_app.
  cbn [list_ascii_of_string].
  rewrite (trimRight_spaces _ _ x Hw Hx).
  change [x] with (list_ascii_of_string (String x "")).
  now rewrite <- list_ascii_of_string_app, string_of_list_ascii_of_string.
Qed.

(** X19. White space after a resize line does not matter.  A line
    [resize:<a>:<b>] whose fields [strconv.Atoi] accepts, followed by
    any run of ASCII white space (a line feed, a carriage return and a
    line feed, blanks, tabs), is handled as the line itself: the loop
    asks the PTY for the two values modulo [2^16]. *)
Theorem X19_trailing_white_space_is_ignored :
  forall (a b ws : string) (width height : Z) (ok : bool) (pty : Winsize),
    Atoi a = Some width ->
    Atoi b = Some height ->
    Forall (fun c => isAsciiSpace c = true) (list_ascii_of_string ws) ->
    resizeIter (Some ("resize:" ++ a ++ ":" ++ b ++ ws)) ok pty
    = (Continue,
       [Log "Resize request received";
        PtySetsize {| Rows := height mod 2 ^ 16; Cols := width mod 2 ^ 16;
                      X := 0; Y := 0 |} ok;
        Log (if ok then "Terminal resized to %dx%d"
             else "Error resizing PTY: %v")],
       if ok
       then {| Rows := height mod 2 ^ 16; Cols := width mod 2 ^ 16;
               X := 0; Y := 0 |}
       else pty).
Proof.
  intros a b ws width height ok pty Ha Hb Hw.
  destruct (Atoi_plain _ _ Ha) as [_ Pa].
  destruct (Atoi_plain _ _ Hb) as [Nb Pb].
  destruct (string_last b Nb) as (m & x & Eb).
  assert (Px : plain x = true).
  { rewrite Eb, list_ascii_of_string_app in Pb.
    apply Forall_app in Pb as [_ Pb]. now inversion Pb. }
  assert (Ht : TrimSpace ("resize:" ++ a ++ ":" ++ b ++ ws)
               = "resize" ++ String ":" (a ++ String ":" b)).
  { replace ("resize:" ++ a ++ ":" ++ b ++ ws)
      with (String "r" ("esize:" ++ a ++ ":" ++ b) ++ ws)
      by (cbn; now rewrite !append_assoc).
    apply (TrimSpace_spaces "r" x _ ("resize:" ++ a ++ ":" ++ m) ws
                            eq_refl Px); [|exact Hw].
    rewrite Eb. cbn. now rewrite !append_assoc. }
  unfold resizeIter.
  replace (HasPrefix ("resize:" ++ a ++ ":" ++ b ++ ws) "resize:")
    with true by reflexivity.
  cbv zeta. rewrite Ht.
  rewrite Split_piece by (repeat constructor).
  rewrite Split_piece by (now apply plain_no_colon).
  rewrite Split_last by (now apply plain_no_colon).
  cbn [List.length Nat.eqb nth]. rewrite Ha, Hb. reflexivity.
Qed.

Lemma X19_trailing_white_space_is_ignored_witness :
  Atoi "120" = Some 120
  /\ Atoi "40" = Some 40
  /\ snd (resizeIter
            (Some ("resize:120:40" ++ " " ++ String (ascii_of_N 13) nl))
            true (winsize 80 24))
     = winsize 120 40.
Proof.
  split; [reflexivity|]. split; [reflexivity|].
  assert (Hw : Forall (fun c => isAsciiSpace c = true)
                      (list_ascii_of_string
                         (" " ++ String (ascii_of_N 13) nl)))
    by (repeat constructor).
  exact (f_equal snd
           (X19_trailing_white_space_is_ignored
              "120" "40" (" " ++ String (ascii_of_N 13) nl) 120 40 true
              (winsize 80 24) eq_refl eq_refl Hw)).
Defined.
